(** * bibtex: the BibTeX data model and its three printers

    A shallow embedding of [bibtex.go]: the string values ([BibConst],
    [BibVar], [BibComposite]), entries, the bibliography and the printers
    [String], [RawString] and [PrettyString].

    Conventions of the embedding.
    - A Go [string] is a sequence of bytes: Rocq's [string].
    - A Go [int] is a 64-bit integer, embedded in [Z]; the only place where
      the width matters is the range check of [strconv.Atoi].
    - [*BibVar] is an address into a store of [BibVar] cells, because the
      variable table and the values that refer to variables share the cells.
    - [range] over a Go map visits every key once, in an order the runtime
      picks afresh for every loop; the printers take the orders as an
      argument and the [_runs] relations quantify over all of them.
    - A call that does not return a string (a dereference of an invalid
      pointer, or recursion deeper than the budget) yields [None]. *)

From Stdlib Require Import ZArith Ascii String List Lia.
From Stdlib Require Import DecimalString DecimalZ DecimalPos.
From stdpp Require Import base option list strings gmap fin_maps.

Set Warnings "-register-all".
Local Open Scope Z_scope.

(** ** Bytes that have no literal form inside a Rocq string *)

Definition nl : string := String "010"%char EmptyString.
Definition dquote : string := String "034"%char EmptyString.

(** ** The Go library functions the package calls *)

(** [strings.Repeat], [strings.ContainsAny] and [strings.TrimSpace]. *)
Module GoStrings.

Definition byte_of (c : ascii) : Z := Z.of_N (N_of_ascii c).

Fixpoint repeat_nat (s : string) (count : nat) : string :=
  match count with
  | O => EmptyString
  | S n => s +:+ repeat_nat s n
  end.

(** [strings.Repeat(s, count)]; a negative [count] panics. *)
Definition Repeat (s : string) (count : Z) : option string :=
  if count <? 0 then None else Some (repeat_nat s (Z.to_nat count)).

Fixpoint contains_byte (c : ascii) (chars : string) : bool :=
  match chars with
  | EmptyString => false
  | String d rest => if Ascii.eqb c d then true else contains_byte c rest
  end.

(** [strings.ContainsAny(s, chars)] for a [chars] made of ASCII bytes, the
    only way the package calls it: an ASCII byte never occurs inside the
    encoding of another code point, so the test is bytewise. *)
Fixpoint ContainsAny (s chars : string) : bool :=
  match s with
  | EmptyString => false
  | String c rest => if contains_byte c chars then true else ContainsAny rest chars
  end.

(** The table [asciiSpace] of package strings. *)
Definition asciiSpace (c : ascii) : bool :=
  match c with
  | "009" | "010" | "011" | "012" | "013" | " " => true
  | _ => false
  end%char.

(** [unicode.IsSpace] on the code points above U+007F, as their UTF-8
    encodings: U+0085 and U+00A0 (two bytes), U+1680, U+2000..U+200A,
    U+2028, U+2029, U+202F, U+205F and U+3000 (three bytes). *)
Definition space2 (b0 b1 : Z) : bool :=
  (b0 =? 194) && ((b1 =? 133) || (b1 =? 160)).

Definition space3 (b0 b1 b2 : Z) : bool :=
  ((b0 =? 225) && (b1 =? 154) && (b2 =? 128))
  || ((b0 =? 226) && (b1 =? 128)
      && (((128 <=? b2) && (b2 <=? 138)) || (b2 =? 168) || (b2 =? 169) || (b2 =? 175)))
  || ((b0 =? 226) && (b1 =? 129) && (b2 =? 159))
  || ((b0 =? 227) && (b1 =? 128) && (b2 =? 128)).

(** [strings.TrimLeftFunc(s, unicode.IsSpace)]: drop white-space code
    points while the string starts with one. *)
Fixpoint trimLeft (s : string) : string :=
  match s with
  | EmptyString => EmptyString
  | String c0 s1 =>
      if asciiSpace c0 then trimLeft s1
      else
        match s1 with
        | EmptyString => s
        | String c1 s2 =>
            if space2 (byte_of c0) (byte_of c1) then trimLeft s2
            else
              match s2 with
              | EmptyString => s
              | String c2 s3 =>
                  if space3 (byte_of c0) (byte_of c1) (byte_of c2)
                  then trimLeft s3 else s
              end
        end
  end.

(** The same from the right end, on the reversed string: the bytes of a
    code point come last byte first. *)
Fixpoint trimLeft_rev (s : string) : string :=
  match s with
  | EmptyString => EmptyString
  | String c0 s1 =>
      if asciiSpace c0 then trimLeft_rev s1
      else
        match s1 with
        | EmptyString => s
        | String c1 s2 =>
            if space2 (byte_of c1) (byte_of c0) then trimLeft_rev s2
            else
              match s2 with
              | EmptyString => s
              | String c2 s3 =>
                  if space3 (byte_of c2) (byte_of c1) (byte_of c0)
                  then trimLeft_rev s3 else s
              end
        end
  end.

Definition trimRight (s : string) : string :=
  String.rev (trimLeft_rev (String.rev s)).

(** [strings.TrimSpace(s)]: the leading white space goes first, the
    trailing white space of what is left second. *)
Definition TrimSpace (s : string) : string := trimRight (trimLeft s).

End GoStrings.

(** [strconv.Atoi] and the verb [%d] of package fmt. *)
Module GoStrconv.

Definition minInt : Z := - 2 ^ 63.
Definition maxInt : Z := 2 ^ 63 - 1.

Definition digit (ch : ascii) : option Z :=
  let b := GoStrings.byte_of ch in
  if (48 <=? b) && (b <=? 57) then Some (b - 48) else None.

(** The loop [n = n*10 + int(ch)] over the bytes after the sign. *)
Fixpoint digits (n : Z) (s : string) : option Z :=
  match s with
  | EmptyString => Some n
  | String ch rest =>
      match digit ch with
      | Some d => digits (n * 10 + d) rest
      | None => None
      end
  end.

Definition unsigned (s : string) : option Z :=
  match s with
  | EmptyString => None
  | _ => digits 0 s
  end.

(** [strconv.Atoi(s)]: an optional sign, at least one decimal digit and
    nothing else; [None] is the non-nil [err] (syntax or range). *)
Definition Atoi (s : string) : option Z :=
  match s with
  | EmptyString => None
  | String c rest =>
      let neg := Ascii.eqb c "-"%char in
      let body := if neg || Ascii.eqb c "+"%char then rest else s in
      match unsigned body with
      | None => None
      | Some un =>
          let n := if neg then - un else un in
          if (minInt <=? n) && (n <=? maxInt) then Some n else None
      end
  end.

(** [fmt.Sprintf("%d", i)]. *)
Definition FormatInt (i : Z) : string := NilZero.string_of_int (Z.to_int i).

End GoStrconv.

(** ** Package bytes: the buffer the printers write to *)

Abbreviation Buffer := string.

Definition Len (b : Buffer) : Z := Z.of_nat (String.length b).

Definition WriteString (b : Buffer) (s : string) : Buffer := b +:+ s.

(** [b.Truncate(n)] keeps the first [n] bytes and panics when [n] is
    negative or beyond the length. *)
Definition Truncate (b : Buffer) (n : Z) : option Buffer :=
  if (n <? 0) || (Len b <? n) then None
  else Some (String.substring 0 (Z.to_nat n) b).

(** [for _, x := range l { body }] over a slice, threading the buffer. *)
Definition for_range {A : Type} (body : Buffer -> A -> option Buffer) :
    Buffer -> list A -> option Buffer :=
  fix go (buf : Buffer) (l : list A) : option Buffer :=
    match l with
    | [] => Some buf
    | x :: rest =>
        match body buf x with
        | Some buf' => go buf' rest
        | None => None
        end
    end.

(** ** String values *)

Definition addr := nat.

(** The dynamic types a [BibString] of this package can have.  [BibConst]
    has value receivers, so both [BibConst] and [*BibConst] implement the
    interface; [BibVar] and [BibComposite] have pointer receivers.
    [NewBibConst] returns a [BibConst], not a pointer.  A [*BibComposite]
    is read through its slice, embedded as the list of its elements. *)
Inductive BibString : Type :=
  | ValBibConst (c : string)
  | PtrBibConst (c : string)
  | PtrBibVar (v : addr)
  | PtrBibComposite (c : list BibString).

Record BibVar : Type := mkBibVar { Key : string; Value : BibString }.

(** The cells [&BibVar{...}] allocated so far; an address is an index. *)
Abbreviation store := (list BibVar).

Definition NewBibConst (c : string) : BibString := ValBibConst c.

(** [Append] returns the address of a new slice header whose elements are
    those of [*c] followed by [s]. *)
Definition Append (c : list BibString) (s : BibString) : list BibString :=
  c ++ [s].

Definition NewBibComposite (s : BibString) : list BibString := Append [] s.

Definition BibConst_String (c : string) : string := c.

Definition BibConst_RawString (c : string) : string := "{" +:+ c +:+ "}".

(** [s.String()] by dynamic dispatch.  [depth] bounds the nesting of calls;
    [BibVar.String] is [v.Value.String()] and [BibComposite.String] writes
    [s.String()] for every element to a fresh buffer. *)
Fixpoint BibString_String (h : store) (depth : nat) (s : BibString) : option string :=
  match depth with
  | O => None
  | S d =>
      match s with
      | ValBibConst c | PtrBibConst c => Some (BibConst_String c)
      | PtrBibVar v =>
          match h !! v with
          | Some cell => BibString_String h d (Value cell)
          | None => None
          end
      | PtrBibComposite c =>
          for_range
            (fun buf s =>
               match BibString_String h d s with
               | Some r => Some (WriteString buf r)
               | None => None
               end)
            EmptyString c
      end
  end.

Definition BibVar_RawString (h : store) (v : addr) : option string :=
  match h !! v with
  | Some cell => Some (Key cell)
  | None => None
  end.

(** [for i, comp := range *c] of [BibComposite.RawString], over the
    elements from index [i] on, with [raw] the method [RawString] of the
    three types the switch names. *)
Definition composite_loop (raw : BibString -> option string) :
    nat -> Buffer -> list BibString -> option Buffer :=
  fix go (i : nat) (buf : Buffer) (l : list BibString) : option Buffer :=
    match l with
    | [] => Some buf
    | comp :: rest =>
        let buf := if (0 <? i)%nat then WriteString buf " # " else buf in
        let written :=
          match comp with
          | PtrBibConst _ | PtrBibVar _ | PtrBibComposite _ =>
              match raw comp with
              | Some r => Some (WriteString buf r)
              | None => None
              end
          | ValBibConst _ => Some buf
          end in
        match written with
        | Some buf' => go (S i) buf' rest
        | None => None
        end
    end.

(** [s.RawString()] by dynamic dispatch. *)
Fixpoint BibString_RawString (h : store) (s : BibString) : option string :=
  match s with
  | ValBibConst c | PtrBibConst c => Some (BibConst_RawString c)
  | PtrBibVar v => BibVar_RawString h v
  | PtrBibComposite c => composite_loop (BibString_RawString h) 0 EmptyString c
  end.

Definition BibComposite_String (h : store) (depth : nat) (c : list BibString) :
    option string :=
  BibString_String h depth (PtrBibComposite c).

Definition BibComposite_RawString (h : store) (c : list BibString) : option string :=
  BibString_RawString h (PtrBibComposite c).

(** ** Entries and the bibliography *)

(** The field [Type] of the source is [Type_]: the name is reserved here. *)
Record BibEntry : Type := mkBibEntry {
  Type_ : string;
  CiteName : string;
  Fields : gmap string BibString
}.

(** [strings.NewReplacer(" ", "").Replace(s)]: every space byte goes. *)
Fixpoint spaceStripper (s : string) : string :=
  match s with
  | EmptyString => EmptyString
  | String c rest =>
      if Ascii.eqb c " "%char then spaceStripper rest else String c (spaceStripper rest)
  end.

Section Constructor.

(** [strings.ToLower], which follows the Unicode case tables. *)
Variable ToLower : string -> string.

Definition NewBibEntry (entryType citeName : string) : BibEntry :=
  {| Type_ := ToLower (spaceStripper entryType);
     CiteName := spaceStripper citeName;
     Fields := ∅ |}.

End Constructor.

(** [entry.AddField(name, value)]. *)
Definition AddField (name : string) (value : BibString) (entry : BibEntry) : BibEntry :=
  {| Type_ := Type_ entry;
     CiteName := CiteName entry;
     Fields := <[GoStrings.TrimSpace name := value]> (Fields entry) |}.

(** [StringVar] maps a key to the address of a [BibVar] cell.  The printers
    read the entries as they are when the printer is called. *)
Record BibTex : Type := mkBibTex {
  Preambles : list BibString;
  Entries : list BibEntry;
  StringVar : gmap string addr
}.

Definition NewBibTex : BibTex :=
  {| Preambles := []; Entries := []; StringVar := ∅ |}.

Definition AddPreamble (p : BibString) (bib : BibTex) : BibTex :=
  {| Preambles := Preambles bib ++ [p];
     Entries := Entries bib;
     StringVar := StringVar bib |}.

Definition AddEntry (entry : BibEntry) (bib : BibTex) : BibTex :=
  {| Preambles := Preambles bib;
     Entries := Entries bib ++ [entry];
     StringVar := StringVar bib |}.

(** [bib.StringVar[key] = &BibVar{Key: key, Value: val}]: a new cell is
    allocated and its address stored under [key]. *)
Definition AddStringVar (key : string) (val : BibString) (st : store * BibTex) :
    store * BibTex :=
  let '(h, bib) := st in
  let v := length h in
  (h ++ [{| Key := key; Value := val |}],
   {| Preambles := Preambles bib;
      Entries := Entries bib;
      StringVar := <[key := v]> (StringVar bib) |}).

(** What a call does: it returns a value, or the process exits
    ([log.Fatalf] logs the message and calls [os.Exit(1)]). *)
Inductive outcome (A : Type) : Type :=
  | Returns (a : A)
  | Exits (code : Z) (logged : string).
Arguments Returns {A} a.
Arguments Exits {A} code logged.

Section Lookup.

(** The text of the error value [ErrUnknownStringVar], which is declared
    in another file of the package. *)
Variable ErrUnknownStringVar : string.

Definition GetStringVar (bib : BibTex) (key : string) : outcome addr :=
  match StringVar bib !! key with
  | Some bv => Returns bv
  | None => Exits 1 (ErrUnknownStringVar +:+ ": " +:+ key)
  end.

End Lookup.

(** ** The printers *)

(** The order in which one [range] loop visits a map. *)
Definition range_order {A : Type} (m : gmap string A) (order : list (string * A)) : Prop :=
  order ≡ₚ map_to_list m.

(** [fmt.Sprintf("@%s{%s,\n", entry.Type, entry.CiteName)] *)
Definition header (entry : BibEntry) : string :=
  "@" +:+ Type_ entry +:+ "{" +:+ CiteName entry +:+ "," +:+ nl.

(** The body of the field loop of [BibTex.String]. *)
Definition String_field (h : store) (depth : nat) (bibtex : Buffer)
    (kv : string * BibString) : option Buffer :=
  let '(key, val) := kv in
  match BibString_String h depth val with
  | None => None
  | Some r =>
      match GoStrconv.Atoi (GoStrings.TrimSpace r) with
      | Some i =>
          Some (WriteString bibtex
                  ("  " +:+ key +:+ " = " +:+ GoStrconv.FormatInt i +:+ "," +:+ nl))
      | None =>
          Some (WriteString bibtex
                  ("  " +:+ key +:+ " = {" +:+ GoStrings.TrimSpace r +:+ "}," +:+ nl))
      end
  end.

(** The body of the entry loop of [BibTex.String]; [order] is the order in
    which the field loop visits [entry.Fields]. *)
Definition String_entry (h : store) (depth : nat) (bibtex : Buffer)
    (eo : BibEntry * list (string * BibString)) : option Buffer :=
  let '(entry, order) := eo in
  let bibtex := WriteString bibtex (header entry) in
  match for_range (String_field h depth) bibtex order with
  | None => None
  | Some bibtex =>
      match Truncate bibtex (Len bibtex - 2) with
      | None => None
      | Some bibtex => Some (WriteString bibtex (nl +:+ "}" +:+ nl))
      end
  end.

(** [bib.String()], with the visiting order of every entry's fields. *)
Definition BibTex_String (h : store) (depth : nat) (bib : BibTex)
    (orders : list (list (string * BibString))) : option string :=
  for_range (String_entry h depth) EmptyString (zip (Entries bib) orders).

(** The body of the variable loop of [BibTex.RawString]. *)
Definition RawString_var (h : store) (depth : nat) (bibtex : Buffer)
    (kv : string * addr) : option Buffer :=
  let '(k, strvar) := kv in
  match BibString_String h depth (PtrBibVar strvar) with
  | None => None
  | Some r => Some (WriteString bibtex ("@string{" +:+ k +:+ " = {" +:+ r +:+ "}}" +:+ nl))
  end.

Definition RawString_preamble (h : store) (bibtex : Buffer) (preamble : BibString) :
    option Buffer :=
  match BibString_RawString h preamble with
  | None => None
  | Some r => Some (WriteString bibtex ("@preamble{" +:+ r +:+ "}" +:+ nl))
  end.

Definition RawString_field (h : store) (depth : nat) (bibtex : Buffer)
    (kv : string * BibString) : option Buffer :=
  let '(key, val) := kv in
  match BibString_String h depth val with
  | None => None
  | Some r =>
      match GoStrconv.Atoi (GoStrings.TrimSpace r) with
      | Some i =>
          Some (WriteString bibtex
                  ("  " +:+ key +:+ " = " +:+ GoStrconv.FormatInt i +:+ "," +:+ nl))
      | None =>
          match BibString_RawString h val with
          | None => None
          | Some raw =>
              Some (WriteString bibtex ("  " +:+ key +:+ " = " +:+ raw +:+ "," +:+ nl))
          end
      end
  end.

Definition RawString_entry (h : store) (depth : nat) (bibtex : Buffer)
    (eo : BibEntry * list (string * BibString)) : option Buffer :=
  let '(entry, order) := eo in
  let bibtex := WriteString bibtex (header entry) in
  match for_range (RawString_field h depth) bibtex order with
  | None => None
  | Some bibtex =>
      match Truncate bibtex (Len bibtex - 2) with
      | None => None
      | Some bibtex => Some (WriteString bibtex (nl +:+ "}" +:+ nl))
      end
  end.

(** [bib.RawString()], with the visiting order of the variable table and
    of every entry's fields. *)
Definition BibTex_RawString (h : store) (depth : nat) (bib : BibTex)
    (vars : list (string * addr)) (orders : list (list (string * BibString))) :
    option string :=
  match for_range (RawString_var h depth) EmptyString vars with
  | None => None
  | Some bibtex =>
      match for_range (RawString_preamble h) bibtex (Preambles bib) with
      | None => None
      | Some bibtex =>
          for_range (RawString_entry h depth) bibtex (zip (Entries bib) orders)
      end
  end.

(** The first field loop of [BibTex.PrettyString]. *)
Definition keylen_loop (keys : list string) : Z :=
  fold_left (fun keylen key => if keylen <? Len key then Len key else keylen) keys 0.

Definition PrettyString_field (h : store) (depth : nat) (keylen : Z) (bibtex : Buffer)
    (kv : string * BibString) : option Buffer :=
  let '(key, val) := kv in
  match BibString_String h depth val with
  | None => None
  | Some r =>
      match GoStrings.Repeat " " (keylen - Len key) with
      | None => None
      | Some pad =>
          match GoStrconv.Atoi (GoStrings.TrimSpace r) with
          | Some i =>
              Some (WriteString bibtex
                      ("  " +:+ key +:+ pad +:+ " = " +:+ GoStrconv.FormatInt i
                       +:+ "," +:+ nl))
          | None =>
              if GoStrings.ContainsAny r (dquote +:+ "{}") then
                Some (WriteString bibtex
                        ("  " +:+ key +:+ pad +:+ " = {" +:+ r +:+ "}," +:+ nl))
              else
                Some (WriteString bibtex
                        ("  " +:+ key +:+ pad +:+ " = " +:+ dquote +:+ r +:+ dquote
                         +:+ "," +:+ nl))
          end
      end
  end.

(** [order1] is the visiting order of the loop that computes [keylen],
    [order2] the one of the loop that writes the fields. *)
Definition PrettyString_entry (h : store) (depth : nat) (bibtex : Buffer)
    (eo : BibEntry * (list (string * BibString) * list (string * BibString))) :
    option Buffer :=
  let '(entry, (order1, order2)) := eo in
  let bibtex := WriteString bibtex (header entry) in
  let keylen := keylen_loop (map fst order1) in
  match for_range (PrettyString_field h depth keylen) bibtex order2 with
  | None => None
  | Some bibtex => Some (WriteString bibtex ("}" +:+ nl))
  end.

Definition BibTex_PrettyString (h : store) (depth : nat) (bib : BibTex)
    (orders : list (list (string * BibString) * list (string * BibString))) :
    option string :=
  for_range (PrettyString_entry h depth) EmptyString (zip (Entries bib) orders).

(** *** What a call of a printer can return *)

Definition String_runs (h : store) (bib : BibTex) (out : string) : Prop :=
  exists depth orders,
    Forall2 (fun e o => range_order (Fields e) o) (Entries bib) orders
    /\ BibTex_String h depth bib orders = Some out.

Definition RawString_runs (h : store) (bib : BibTex) (out : string) : Prop :=
  exists depth vars orders,
    range_order (StringVar bib) vars
    /\ Forall2 (fun e o => range_order (Fields e) o) (Entries bib) orders
    /\ BibTex_RawString h depth bib vars orders = Some out.

Definition PrettyString_runs (h : store) (bib : BibTex) (out : string) : Prop :=
  exists depth orders,
    Forall2 (fun e o => range_order (Fields e) (fst o) /\ range_order (Fields e) (snd o))
      (Entries bib) orders
    /\ BibTex_PrettyString h depth bib orders = Some out.

(** ** The layout of the printed text

    The functions below say what the printers write, line by line; the
    properties relate them to the code above, which threads a buffer. *)

(** [cat] puts the strings of a list one after the other. *)
Definition cat (l : list string) : string := fold_right String.append EmptyString l.

(** [collect f l] is the list of the [f x], when every one of them is there. *)
Fixpoint collect {A B : Type} (f : A -> option B) (l : list A) : option (list B) :=
  match l with
  | [] => Some []
  | x :: rest =>
      match f x with
      | None => None
      | Some y =>
          match collect f rest with
          | None => None
          | Some ys => Some (y :: ys)
          end
      end
  end.

(** A field without the comma and the newline that end its line. *)
Definition assignment (name value : string) : string := "  " +:+ name +:+ " = " +:+ value.

(** An entry: its header up to the cite key and its fields, joined by a
    comma and a newline, then the line of the closing brace. *)
Definition entry_block (entry : BibEntry) (fields : list string) : string :=
  String.concat ("," +:+ nl) (("@" +:+ Type_ entry +:+ "{" +:+ CiteName entry) :: fields)
  +:+ nl +:+ "}" +:+ nl.

(** The value of a field in the simplified and in the pretty form, from
    its resolved text [r]. *)
Definition Simplified_value (r : string) : string :=
  match GoStrconv.Atoi (GoStrings.TrimSpace r) with
  | Some i => GoStrconv.FormatInt i
  | None => "{" +:+ GoStrings.TrimSpace r +:+ "}"
  end.

Definition Pretty_value (r : string) : string :=
  match GoStrconv.Atoi (GoStrings.TrimSpace r) with
  | Some i => GoStrconv.FormatInt i
  | None =>
      if GoStrings.ContainsAny r (dquote +:+ "{}") then "{" +:+ r +:+ "}"
      else dquote +:+ r +:+ dquote
  end.

(** The fields and the entries of [BibTex.String]. *)
Definition String_assignment (h : store) (depth : nat) (kv : string * BibString) :
    option string :=
  match BibString_String h depth kv.2 with
  | Some r => Some (assignment kv.1 (Simplified_value r))
  | None => None
  end.

Definition String_block (h : store) (depth : nat)
    (eo : BibEntry * list (string * BibString)) : option string :=
  match collect (String_assignment h depth) eo.2 with
  | Some fields => Some (entry_block eo.1 fields)
  | None => None
  end.

(** The lines, the fields and the entries of [BibTex.RawString]. *)
Definition string_line (k r : string) : string :=
  "@string{" +:+ k +:+ " = {" +:+ r +:+ "}}" +:+ nl.

Definition preamble_line (raw : string) : string := "@preamble{" +:+ raw +:+ "}" +:+ nl.

Definition RawString_string_line (h : store) (depth : nat) (kv : string * addr) :
    option string :=
  match BibString_String h depth (PtrBibVar kv.2) with
  | Some r => Some (string_line kv.1 r)
  | None => None
  end.

Definition RawString_preamble_line (h : store) (preamble : BibString) : option string :=
  match BibString_RawString h preamble with
  | Some raw => Some (preamble_line raw)
  | None => None
  end.

Definition RawString_assignment (h : store) (depth : nat) (kv : string * BibString) :
    option string :=
  match BibString_String h depth kv.2 with
  | Some r =>
      match GoStrconv.Atoi (GoStrings.TrimSpace r) with
      | Some i => Some (assignment kv.1 (GoStrconv.FormatInt i))
      | None =>
          match BibString_RawString h kv.2 with
          | Some raw => Some (assignment kv.1 raw)
          | None => None
          end
      end
  | None => None
  end.

Definition RawString_block (h : store) (depth : nat)
    (eo : BibEntry * list (string * BibString)) : option string :=
  match collect (RawString_assignment h depth) eo.2 with
  | Some fields => Some (entry_block eo.1 fields)
  | None => None
  end.

(** The lines of [BibTex.PrettyString]. *)
Definition PrettyString_line (h : store) (depth : nat) (keylen : Z)
    (kv : string * BibString) : option string :=
  match BibString_String h depth kv.2 with
  | Some r =>
      match GoStrings.Repeat " " (keylen - Len kv.1) with
      | Some pad => Some ("  " +:+ kv.1 +:+ pad +:+ " = " +:+ Pretty_value r +:+ "," +:+ nl)
      | None => None
      end
  | None => None
  end.

(** [line] is the line of the field [kv] in an entry whose longest key has
    [keylen] bytes. *)
Definition pretty_line_of (h : store) (d : nat) (keylen : Z)
    (kv : string * BibString) (line : string) : Prop :=
  exists r pad,
    BibString_String h d kv.2 = Some r
    /\ pad = GoStrings.repeat_nat " " (Z.to_nat (keylen - Len kv.1))
    /\ Len (kv.1 +:+ pad) = keylen
    /\ line = "  " +:+ kv.1 +:+ pad +:+ " = "
              +:+ match GoStrconv.Atoi (GoStrings.TrimSpace r) with
                  | Some i => GoStrconv.FormatInt i
                  | None =>
                      if GoStrings.ContainsAny r (dquote +:+ "{}")
                      then "{" +:+ r +:+ "}"
                      else dquote +:+ r +:+ dquote
                  end
              +:+ "," +:+ nl.

(** What the type switch of [BibComposite.RawString] writes for one
    element: the cases are [*BibConst], [*BibVar] and [*BibComposite], and
    an element of dynamic type [BibConst] falls through all of them. *)
Definition switch_RawString (h : store) (comp : BibString) : option string :=
  match comp with
  | ValBibConst _ => Some EmptyString
  | _ => BibString_RawString h comp
  end.

(** The dynamic type of [s] is one of the pointer types. *)
Definition is_pointer (s : BibString) : Prop :=
  match s with ValBibConst _ => False | _ => True end.


(** [s] has an empty line: two newline bytes in a row. *)
Fixpoint has_blank_line (s : string) : bool :=
  match s with
  | EmptyString => false
  | String c rest =>
      match rest with
      | EmptyString => false
      | String c' _ =>
          (Ascii.eqb c "010"%char && Ascii.eqb c' "010"%char) || has_blank_line rest
      end
  end.


(** ** The bibliographies of the examples *)

(** Scenario 1: one entry with one field. *)
Definition one_field_bib : BibTex :=
  AddEntry (AddField "title" (NewBibConst "Hello") (mkBibEntry "article" "doe2020" ∅))
    NewBibTex.

(** An entry without fields. *)
Definition no_field_bib : BibTex :=
  AddEntry (mkBibEntry "article" "doe2020" ∅) NewBibTex.

(** An entry with the two fields [a = 1] and [b = 2], and the two orders
    in which a loop can visit them. *)
Definition two_field_bib : BibTex :=
  AddEntry
    (AddField "b" (NewBibConst "2")
       (AddField "a" (NewBibConst "1") (mkBibEntry "misc" "k" ∅)))
    NewBibTex.

Definition a_then_b : list (string * BibString) :=
  [("a"%string, NewBibConst "1"); ("b"%string, NewBibConst "2")].

Definition b_then_a : list (string * BibString) :=
  [("b"%string, NewBibConst "2"); ("a"%string, NewBibConst "1")].

(** Two entries, one field each, and the text of the two. *)
Definition two_entry_bib : BibTex :=
  AddEntry (AddField "title" (NewBibConst "World") (mkBibEntry "book" "roe2021" ∅))
    one_field_bib.

Definition two_entry_text : string :=
  "@article{doe2020," +:+ nl +:+ "  title = {Hello}" +:+ nl +:+ "}" +:+ nl
  +:+ "@book{roe2021," +:+ nl +:+ "  title = {World}" +:+ nl +:+ "}" +:+ nl.

(** Scenario 2: [month] is defined as [Constant("jan")] and the field
    [month] of an entry refers to it. *)
Definition month_state : store * BibTex :=
  AddStringVar "month" (NewBibConst "jan")
    ([], AddEntry (AddField "month" (PtrBibVar 0%nat) (mkBibEntry "misc" "k" ∅)) NewBibTex).

(** An entry with a short and a long field name. *)
Definition pretty_entry : BibEntry :=
  AddField "year" (NewBibConst "2020")
    (AddField "title" (NewBibConst "Hello {W}") (mkBibEntry "article" "doe2020" ∅)).

Definition title_then_year : list (string * BibString) :=
  [("title"%string, NewBibConst "Hello {W}"); ("year"%string, NewBibConst "2020")].

(** ** Stores and tables that the package builds *)

(** Every cell that [s] refers to has an address below [n]. *)
Fixpoint refers_below (n : nat) (s : BibString) : bool :=
  match s with
  | ValBibConst _ | PtrBibConst _ => true
  | PtrBibVar v => (v <? n)%nat
  | PtrBibComposite c => forallb (refers_below n) c
  end.

(** Every cell refers to cells allocated before it only, as it is when the
    cells are allocated one by one from values that exist already. *)
Definition store_ok (h : store) : Prop :=
  forall v cell, h !! v = Some cell -> refers_below v (Value cell) = true.

(** Every key of the table is bound to a cell that carries the key. *)
Definition table_ok (h : store) (bib : BibTex) : Prop :=
  forall key v, StringVar bib !! key = Some v ->
    exists cell, h !! v = Some cell /\ Key cell = key.

(** The line that the field loop of [BibTex.String] writes for a field. *)
Definition String_line (h : store) (depth : nat) (kv : string * BibString) :
    option string :=
  match String_assignment h depth kv with
  | Some a => Some (a +:+ "," +:+ nl)
  | None => None
  end.

(** The field is a constant whose text has no white space around it. *)
Definition plain_constant (kv : string * BibString) : Prop :=
  exists c, (kv.2 = ValBibConst c \/ kv.2 = PtrBibConst c) /\ GoStrings.TrimSpace c = c.

(** * Properties *)

(** ** The library functions on examples *)

Example TrimSpace_ex1 :
  GoStrings.TrimSpace (String "009"%char "  42 a " +:+ nl) = "42 a"%string.
Proof. reflexivity. Qed.

Example Atoi_ex1 : GoStrconv.Atoi "-0042" = Some (-42).
Proof. reflexivity. Qed.

Example Atoi_ex2 : GoStrconv.Atoi "42a" = None.
Proof. reflexivity. Qed.

Example Atoi_ex3 : GoStrconv.Atoi "9223372036854775808" = None.
Proof. reflexivity. Qed.

Example Atoi_ex4 : GoStrconv.Atoi "-9223372036854775808" = Some GoStrconv.minInt.
Proof. reflexivity. Qed.

(** ** Strings and buffers *)

Lemma app_cons (c : ascii) (s t : string) : String c s +:+ t = String c (s +:+ t).
Proof. reflexivity. Qed.

Lemma app_nil_l (s : string) : EmptyString +:+ s = s.
Proof. reflexivity. Qed.

Lemma app_nil_r (s : string) : s +:+ EmptyString = s.
Proof. induction s as [|c s IH]; [reflexivity|]. by rewrite app_cons, IH. Qed.

Lemma app_assoc (s t u : string) : (s +:+ t) +:+ u = s +:+ (t +:+ u).
Proof. induction s as [|c s IH]; [reflexivity|]. by rewrite !app_cons, IH. Qed.

Lemma length_app (s t : string) :
  String.length (s +:+ t) = (String.length s + String.length t)%nat.
Proof. induction s as [|c s IH]; [reflexivity|]. rewrite app_cons. simpl. by rewrite IH. Qed.

Lemma Len_app (s t : string) : Len (s +:+ t) = Len s + Len t.
Proof. unfold Len. rewrite length_app. lia. Qed.

Lemma Len_nonneg (s : string) : 0 <= Len s.
Proof. unfold Len. lia. Qed.

Lemma substring_prefix (s t : string) :
  String.substring 0 (String.length s) (s +:+ t) = s.
Proof.
  induction s as [|c s IH].
  - destruct t; reflexivity.
  - rewrite app_cons. simpl. by rewrite IH.
Qed.

(** Truncating by the length of what was written last gives back the
    buffer from before. *)
Lemma Truncate_app (b s : string) : Truncate (b +:+ s) (Len (b +:+ s) - Len s) = Some b.
Proof.
  unfold Truncate. rewrite Len_app.
  replace (Len b + Len s - Len s) with (Len b) by lia.
  pose proof (Len_nonneg b). pose proof (Len_nonneg s).
  destruct (Z.ltb_spec (Len b) 0); [lia|].
  destruct (Z.ltb_spec (Len b + Len s) (Len b)); [lia|].
  simpl. unfold Len. rewrite Nat2Z.id. by rewrite substring_prefix.
Qed.

Lemma cat_app (l1 l2 : list string) : cat (l1 ++ l2) = cat l1 +:+ cat l2.
Proof.
  induction l1 as [|x l1 IH]; [reflexivity|].
  simpl. by rewrite IH, app_assoc.
Qed.

(** ** Loops that only write *)

(** A loop whose body appends [f x] to the buffer appends them all. *)
Lemma for_range_writes {A : Type} (body : Buffer -> A -> option Buffer)
    (f : A -> option string) (l : list A) (buf : Buffer) :
  (forall b x, body b x = match f x with Some r => Some (b +:+ r) | None => None end) ->
  for_range body buf l =
    match collect f l with Some rs => Some (buf +:+ cat rs) | None => None end.
Proof.
  intros Hbody. revert buf.
  induction l as [|x l IH]; intros buf; simpl.
  - by rewrite app_nil_r.
  - rewrite Hbody. destruct (f x) as [r|]; [|reflexivity].
    rewrite IH. destruct (collect f l) as [rs|]; [|reflexivity].
    by rewrite app_assoc.
Qed.

Lemma collect_app {A B : Type} (f : A -> option B) (l1 l2 : list A) :
  collect f (l1 ++ l2) =
    match collect f l1, collect f l2 with
    | Some r1, Some r2 => Some (r1 ++ r2)
    | _, _ => None
    end.
Proof.
  induction l1 as [|x l1 IH]; simpl.
  - by destruct (collect f l2).
  - destruct (f x); [|reflexivity]. rewrite IH.
    destruct (collect f l1); [|reflexivity]. by destruct (collect f l2).
Qed.

Lemma collect_Some_Forall2 {A B : Type} (f : A -> option B) (l : list A) (rs : list B) :
  collect f l = Some rs <-> Forall2 (fun x r => f x = Some r) l rs.
Proof.
  revert rs. induction l as [|x l IH]; intros rs; simpl.
  - split; [intros [= <-]; constructor | by inversion 1].
  - split.
    + destruct (f x) as [y|] eqn:Hx; [|done].
      destruct (collect f l) as [ys|] eqn:Hl; [|done].
      intros [= <-]. constructor; [done|]. by apply IH.
    + inversion 1 as [|? r ? rs' Hx Hrest]; subst.
      rewrite Hx. apply IH in Hrest. by rewrite Hrest.
Qed.

(** ** Resolved and raw text of string values *)

Lemma collect_ext_Some {A B : Type} (f g : A -> option B) (l : list A) (rs : list B) :
  (forall x r, f x = Some r -> g x = Some r) ->
  collect f l = Some rs -> collect g l = Some rs.
Proof.
  intros Hfg. rewrite !collect_Some_Forall2.
  induction 1; constructor; auto.
Qed.

(** [BibComposite.String] returns the resolved texts of the elements, one
    after the other. *)
Lemma BibComposite_String_eq (h : store) (d : nat) (c : list BibString) :
  BibString_String h (S d) (PtrBibComposite c) =
    match collect (BibString_String h d) c with
    | Some rs => Some (cat rs)
    | None => None
    end.
Proof.
  simpl. rewrite (for_range_writes _ (BibString_String h d)); [|done].
  by destruct (collect _ c).
Qed.

(** A call that returns within some depth returns the same within more. *)
Lemma BibString_String_mono (h : store) (d d' : nat) (s : BibString) (r : string) :
  BibString_String h d s = Some r -> (d <= d')%nat -> BibString_String h d' s = Some r.
Proof.
  revert d' s r. induction d as [|d IH]; intros d' s r Hs Hle; [done|].
  destruct d' as [|d']; [lia|].
  destruct s as [c|c|v|c]; try exact Hs.
  - simpl in *. destruct (h !! v) as [cell|]; [|done]. apply IH; [done|lia].
  - rewrite BibComposite_String_eq in *.
    destruct (collect (BibString_String h d) c) as [rs|] eqn:Hc; [|done].
    rewrite (collect_ext_Some (BibString_String h d) (BibString_String h d') c rs);
      [done| |done].
    intros x rx Hx. apply IH; [done|lia].
Qed.

(** Values that all resolve do so within one common depth. *)
Lemma resolve_common_depth (h : store) (c : list BibString) (rs : list string) :
  Forall2 (fun v r => exists d, BibString_String h d v = Some r) c rs ->
  exists d, Forall2 (fun v r => BibString_String h d v = Some r) c rs.
Proof.
  induction 1 as [|v r c rs [d1 Hv] _ [d2 IH]].
  - exists O. constructor.
  - exists (d1 `max` d2)%nat. constructor.
    + eapply BibString_String_mono; [done|lia].
    + eapply Forall2_impl; [done|]. intros x rx Hx. simpl in Hx.
      eapply BibString_String_mono; [done|lia].
Qed.

(** The resolved text of a composite is the concatenation of the resolved
    texts of its elements, whatever their dynamic types. *)
Lemma BibComposite_String_concat (h : store) (c : list BibString) (rs : list string) :
  Forall2 (fun v r => exists d, BibString_String h d v = Some r) c rs ->
  exists d, BibComposite_String h d c = Some (cat rs).
Proof.
  intros [d Hd]%resolve_common_depth. exists (S d).
  unfold BibComposite_String. rewrite BibComposite_String_eq.
  apply collect_Some_Forall2 in Hd. by rewrite Hd.
Qed.

Lemma composite_loop_from (h : store) (i : nat) (buf : Buffer) (l : list BibString) :
  composite_loop (BibString_RawString h) (S i) buf l =
    match collect (switch_RawString h) l with
    | Some rs => Some (buf +:+ cat (map (fun r => " # " +:+ r) rs))
    | None => None
    end.
Proof.
  revert i buf. induction l as [|comp l IH]; intros i buf.
  - simpl. by rewrite app_nil_r.
  - cbn [composite_loop collect].
    replace (0 <? S i)%nat with true by (symmetry; apply Nat.ltb_lt; lia).
    assert (Hsw : forall b,
      match comp with
      | ValBibConst _ => Some b
      | _ => match BibString_RawString h comp with
             | Some r => Some (WriteString b r)
             | None => None
             end
      end = match switch_RawString h comp with
            | Some r => Some (b +:+ r)
            | None => None
            end).
    { intros b. destruct comp; try reflexivity. simpl. by rewrite app_nil_r. }
    rewrite Hsw. destruct (switch_RawString h comp) as [r|]; [|done].
    fold (composite_loop (BibString_RawString h)). rewrite IH.
    destruct (collect (switch_RawString h) l) as [rs|]; [|done].
    simpl. unfold WriteString. by rewrite !app_assoc.
Qed.

(** [BibComposite.RawString] joins with [" # "] what the switch wrote for
    each element. *)
Lemma BibComposite_RawString_eq (h : store) (c : list BibString) :
  BibComposite_RawString h c =
    match collect (switch_RawString h) c with
    | Some rs => Some (String.concat " # " rs)
    | None => None
    end.
Proof.
  unfold BibComposite_RawString. destruct c as [|comp l]; [reflexivity|].
  cbn [BibString_RawString composite_loop collect].
  assert (Hsw : forall b,
    match comp with
    | ValBibConst _ => Some b
    | _ => match BibString_RawString h comp with
           | Some r => Some (WriteString b r)
           | None => None
           end
    end = match switch_RawString h comp with
          | Some r => Some (b +:+ r)
          | None => None
          end).
  { intros b. destruct comp; try reflexivity. simpl. by rewrite app_nil_r. }
  replace (0 <? 0)%nat with false by reflexivity. cbv beta zeta.
  rewrite Hsw. destruct (switch_RawString h comp) as [r|]; [|done].
  fold (composite_loop (BibString_RawString h)). rewrite composite_loop_from.
  destruct (collect (switch_RawString h) l) as [rs|]; [|done].
  f_equal. rewrite app_nil_l. clear.
  revert r. induction rs as [|r' rs IH]; intros r.
  - simpl. by rewrite app_nil_r.
  - change (String.concat " # " (r :: r' :: rs))
      with (r +:+ " # " +:+ String.concat " # " (r' :: rs)).
    rewrite <- IH. cbn [map cat fold_right]. by rewrite !app_assoc.
Qed.

Lemma BibComposite_RawString_join (h : store) (c : list BibString) (rs : list string) :
  Forall is_pointer c ->
  Forall2 (fun v r => BibString_RawString h v = Some r) c rs ->
  BibComposite_RawString h c = Some (String.concat " # " rs).
Proof.
  intros Hptr Hraw. rewrite BibComposite_RawString_eq.
  assert (collect (switch_RawString h) c = Some rs) as ->; [|done].
  apply collect_Some_Forall2. induction Hraw as [|v r c rs Hv _ IH]; [constructor|].
  inversion Hptr; subst. constructor; [|auto].
  destruct v; simpl in *; done.
Qed.

(** C1: at the composite of [VariableRef("month")], bound to
    [Constant("jan")], and [Constant("-supplement")], built with the
    constructors of the package, [String] returns [jan-supplement] as the
    claim says, and the raw texts of the two elements are [month] and
    [{-supplement}]; but [RawString] of the composite returns [month # ]
    and not [month # {-supplement}]: [NewBibConst] returns a [BibConst],
    and the type switch of [BibComposite.RawString] only has a case for
    [*BibConst], so nothing is written for the constant. *)
Theorem C1_composite_RawString_skips_BibConst :
  let h := [{| Key := "month"; Value := NewBibConst "jan" |}] in
  let c := Append (NewBibComposite (PtrBibVar 0%nat)) (NewBibConst "-supplement") in
  BibComposite_String h 3 c = Some "jan-supplement"%string
  /\ BibString_RawString h (PtrBibVar 0%nat) = Some "month"%string
  /\ BibString_RawString h (NewBibConst "-supplement") = Some "{-supplement}"%string
  /\ BibComposite_RawString h c = Some "month # "%string.
Proof. repeat split; reflexivity. Qed.

(** The same composite with the constant held through a pointer has the
    raw text of the scenario. *)
Example composite_RawString_PtrBibConst :
  let h := [{| Key := "month"; Value := NewBibConst "jan" |}] in
  BibComposite_RawString h
    (Append (NewBibComposite (PtrBibVar 0%nat)) (PtrBibConst "-supplement"))
  = Some "month # {-supplement}"%string.
Proof. reflexivity. Qed.

(** ** The variable table *)

(** Allocating cells does not change what the values that resolved before
    resolve to. *)
Lemma BibString_String_alloc (h h' : store) (d : nat) (s : BibString) (r : string) :
  BibString_String h d s = Some r -> BibString_String (h ++ h') d s = Some r.
Proof.
  revert s r. induction d as [|d IH]; intros s r Hs; [done|].
  destruct s as [c|c|v|c]; try exact Hs.
  - simpl in *. destruct (h !! v) as [cell|] eqn:Hv; [|done].
    rewrite (lookup_app_l_Some _ _ _ _ Hv). by apply IH.
  - rewrite BibComposite_String_eq in *.
    destruct (collect (BibString_String h d) c) as [rs|] eqn:Hc; [|done].
    by rewrite (collect_ext_Some (BibString_String h d)
                  (BibString_String (h ++ h') d) c rs).
Qed.

(** C3, as amended: [AddStringVar] under any key, bound or not, stores a
    new cell under the key without an error; a lookup made afterwards
    returns the new cell, which resolves to the resolved text of the new
    value; the other keys keep their cells; and every value that resolved
    before the call, a reference to the old cell of the key included,
    still resolves to the same text afterwards. *)
Theorem C3_AddStringVar_rebinds_table_not_references
    (err : string) (h : store) (bib : BibTex) (key : string) (val : BibString) :
  let st' := AddStringVar key val (h, bib) in
  let v' := length h in
  GetStringVar err (snd st') key = Returns v'
  /\ fst st' !! v' = Some {| Key := key; Value := val |}
  /\ (forall d, BibString_String (fst st') (S d) (PtrBibVar v')
                = BibString_String (fst st') d val)
  /\ (forall key', key' <> key -> StringVar (snd st') !! key' = StringVar bib !! key')
  /\ (forall v cell, h !! v = Some cell -> fst st' !! v = Some cell)
  /\ (forall d s r, BibString_String h d s = Some r ->
                    BibString_String (fst st') d s = Some r).
Proof.
  simpl. repeat split.
  - unfold GetStringVar. simpl. by rewrite lookup_insert_eq.
  - by rewrite lookup_app_r, Nat.sub_diag.
  - intros d. by rewrite lookup_app_r, Nat.sub_diag.
  - intros key' Hne. by rewrite lookup_insert_ne.
  - intros v cell Hv. by apply lookup_app_l_Some.
  - intros d s r. apply BibString_String_alloc.
Qed.

(** C3, as stated, fails: [month] is bound to [jan], the reference is
    looked up, then [month] is bound again, to [feb].  The lookup now
    returns another cell, and the reference obtained before still resolves
    to [jan], at no depth to [feb]. *)
Lemma C3_reference_keeps_old_value :
  let st1 := AddStringVar "month" (NewBibConst "jan") ([], NewBibTex) in
  let st2 := AddStringVar "month" (NewBibConst "feb") st1 in
  GetStringVar EmptyString (snd st1) "month" = Returns 0%nat
  /\ GetStringVar EmptyString (snd st2) "month" = Returns 1%nat
  /\ BibString_String (fst st2) 2 (NewBibConst "feb") = Some "feb"%string
  /\ BibString_String (fst st2) 2 (PtrBibVar 0%nat) = Some "jan"%string
  /\ ~ (exists d, BibString_String (fst st2) d (PtrBibVar 0%nat) = Some "feb"%string).
Proof.
  repeat split; try reflexivity.
  intros [d Hd].
  assert (BibString_String
            (fst (AddStringVar "month" (NewBibConst "feb")
                    (AddStringVar "month" (NewBibConst "jan") ([], NewBibTex))))
            (d `max` 2) (PtrBibVar 0%nat) = Some "feb"%string) as Hbig.
  { eapply BibString_String_mono; [exact Hd|lia]. }
  assert (BibString_String
            (fst (AddStringVar "month" (NewBibConst "feb")
                    (AddStringVar "month" (NewBibConst "jan") ([], NewBibTex))))
            (d `max` 2) (PtrBibVar 0%nat) = Some "jan"%string) as Hjan.
  { apply (BibString_String_mono _ 2); [reflexivity|lia]. }
  congruence.
Qed.

(** C4: [GetStringVar] returns the cell stored under the key when there is
    one; when there is none it returns nothing: the process exits with
    status 1 after logging the error and the key.  Every key is absent from
    a new bibliography, and present once it is defined. *)
Theorem C4_GetStringVar_returns_or_exits (err : string) (bib : BibTex) (key : string) :
  match StringVar bib !! key with
  | Some bv => GetStringVar err bib key = Returns bv
  | None =>
      GetStringVar err bib key = Exits 1 (err +:+ ": " +:+ key)
      /\ forall bv, GetStringVar err bib key <> Returns bv
  end
  /\ (exists logged, GetStringVar err NewBibTex key = Exits 1 logged)
  /\ (forall h val, exists bv,
        GetStringVar err (snd (AddStringVar key val (h, bib))) key = Returns bv
        /\ fst (AddStringVar key val (h, bib)) !! bv = Some {| Key := key; Value := val |}).
Proof.
  unfold GetStringVar. repeat split.
  - destruct (StringVar bib !! key); [done|]. split; [done|]. intros bv. discriminate.
  - eexists. reflexivity.
  - intros h val. exists (length h). simpl. rewrite lookup_insert_eq. split; [done|].
    by rewrite lookup_app_r, Nat.sub_diag.
Qed.

(** ** The layout of the printed text *)

Lemma collect_fmap {A B C : Type} (f : A -> option B) (g : B -> C) (l : list A) :
  collect (fun x => match f x with Some y => Some (g y) | None => None end) l =
    match collect f l with Some ys => Some (map g ys) | None => None end.
Proof.
  induction l as [|x l IH]; [reflexivity|]. simpl.
  destruct (f x); [|reflexivity]. rewrite IH. by destruct (collect f l).
Qed.

Lemma concat_sep_end (sep x : string) (l : list string) :
  x +:+ sep +:+ cat (map (fun a => a +:+ sep) l) = String.concat sep (x :: l) +:+ sep.
Proof.
  revert x. induction l as [|y l IH]; intros x.
  - simpl. by rewrite app_nil_r.
  - change (String.concat sep (x :: y :: l))
      with (x +:+ sep +:+ String.concat sep (y :: l)).
    cbn [map cat fold_right]. by rewrite !app_assoc, IH.
Qed.

(** The end of both entry loops: the header and the lines are in the
    buffer, the last two bytes go and the closing brace comes. *)
Lemma close_entry (bibtex : Buffer) (entry : BibEntry) (fields : list string) :
  match Truncate (WriteString bibtex (header entry)
                  +:+ cat (map (fun a => a +:+ "," +:+ nl) fields))
          (Len (WriteString bibtex (header entry)
                +:+ cat (map (fun a => a +:+ "," +:+ nl) fields)) - 2) with
  | Some b => Some (WriteString b (nl +:+ "}" +:+ nl))
  | None => None
  end = Some (bibtex +:+ entry_block entry fields).
Proof.
  unfold WriteString, header, entry_block.
  set (hd := "@" +:+ Type_ entry +:+ "{" +:+ CiteName entry).
  set (sep := "," +:+ nl).
  assert ((bibtex +:+ hd +:+ sep) +:+ cat (map (fun a => a +:+ sep) fields)
          = (bibtex +:+ String.concat sep (hd :: fields)) +:+ sep) as Hbuf.
  { by rewrite !app_assoc, concat_sep_end. }
  replace (bibtex +:+ "@" +:+ Type_ entry +:+ "{" +:+ CiteName entry +:+ sep)
    with (bibtex +:+ hd +:+ sep) by (subst hd; by rewrite !app_assoc).
  rewrite Hbuf. change 2 with (Len sep). rewrite Truncate_app.
  by rewrite !app_assoc.
Qed.

Lemma String_field_eq (h : store) (d : nat) (b : Buffer) (kv : string * BibString) :
  String_field h d b kv =
    match String_assignment h d kv with
    | Some a => Some (b +:+ a +:+ "," +:+ nl)
    | None => None
    end.
Proof.
  destruct kv as [key val]. unfold String_field, String_assignment. simpl.
  destruct (BibString_String h d val) as [r|]; [|done].
  unfold Simplified_value, assignment, WriteString.
  destruct (GoStrconv.Atoi _); by rewrite !app_assoc.
Qed.

Lemma String_entry_eq (h : store) (d : nat) (b : Buffer)
    (eo : BibEntry * list (string * BibString)) :
  String_entry h d b eo =
    match String_block h d eo with
    | Some block => Some (b +:+ block)
    | None => None
    end.
Proof.
  destruct eo as [entry order]. unfold String_entry, String_block. simpl.
  rewrite (for_range_writes _
             (fun kv => match String_assignment h d kv with
                        | Some a => Some (a +:+ "," +:+ nl)
                        | None => None
                        end)).
  - rewrite collect_fmap.
    destruct (collect (String_assignment h d) order) as [fields|]; [|done].
    apply close_entry.
  - intros b' kv. rewrite String_field_eq. by destruct (String_assignment h d kv).
Qed.

(** [BibTex.String] returns the blocks of the entries, one after the other
    and nothing else. *)
Lemma BibTex_String_eq (h : store) (d : nat) (bib : BibTex)
    (orders : list (list (string * BibString))) :
  BibTex_String h d bib orders =
    match collect (String_block h d) (zip (Entries bib) orders) with
    | Some blocks => Some (cat blocks)
    | None => None
    end.
Proof.
  unfold BibTex_String.
  rewrite (for_range_writes _ (String_block h d)); [done|].
  intros b eo. apply String_entry_eq.
Qed.

(** ** The depth and the visiting orders *)

Lemma for_range_impl {A : Type} (body1 body2 : Buffer -> A -> option Buffer)
    (l : list A) (buf out : Buffer) :
  (forall b x b', body1 b x = Some b' -> body2 b x = Some b') ->
  for_range body1 buf l = Some out -> for_range body2 buf l = Some out.
Proof.
  intros Himpl. revert buf. induction l as [|x l IH]; intros buf; simpl; [done|].
  destruct (body1 buf x) as [b'|] eqn:Hb; [|done].
  rewrite (Himpl _ _ _ Hb). apply IH.
Qed.

Section Depth.

Variable h : store.
Variables d d' : nat.
Hypothesis Hle : (d <= d')%nat.

Lemma String_field_mono b kv b' :
  String_field h d b kv = Some b' -> String_field h d' b kv = Some b'.
Proof.
  destruct kv as [key val]. unfold String_field.
  destruct (BibString_String h d val) as [r|] eqn:Hr; [|done].
  by rewrite (BibString_String_mono _ _ _ _ _ Hr Hle).
Qed.

Lemma String_entry_mono b eo b' :
  String_entry h d b eo = Some b' -> String_entry h d' b eo = Some b'.
Proof.
  destruct eo as [entry order]. unfold String_entry.
  destruct (for_range (String_field h d) _ order) as [b1|] eqn:Hb1; [|done].
  by rewrite (for_range_impl _ _ _ _ _ String_field_mono Hb1).
Qed.

Lemma BibTex_String_mono bib orders out :
  BibTex_String h d bib orders = Some out -> BibTex_String h d' bib orders = Some out.
Proof. apply for_range_impl, String_entry_mono. Qed.








End Depth.

(** A map with at most one key has one visiting order. *)
Lemma range_order_unique {A : Type} (m : gmap string A) (o1 o2 : list (string * A)) :
  (size m <= 1)%nat -> range_order m o1 -> range_order m o2 -> o1 = o2.
Proof.
  unfold range_order. intros Hsize H1 H2.
  assert (o1 ≡ₚ o2) as Hp by (by rewrite H1, H2).
  assert (length o1 <= 1)%nat as Hlen.
  { rewrite H1, length_map_to_list. exact Hsize. }
  destruct o1 as [|x [|y o1]]; simpl in Hlen; [| |lia].
  - by apply Permutation_nil_l in Hp.
  - by apply Permutation_singleton_l in Hp.
Qed.

Lemma orders_unique (es : list BibEntry) (os1 os2 : list (list (string * BibString))) :
  Forall (fun e => (size (Fields e) <= 1)%nat) es ->
  Forall2 (fun e o => range_order (Fields e) o) es os1 ->
  Forall2 (fun e o => range_order (Fields e) o) es os2 ->
  os1 = os2.
Proof.
  intros Hsize H1. revert os2.
  induction H1 as [|e o1 es os1 Ho1 _ IH]; intros os2 H2.
  - by inversion H2.
  - inversion H2 as [|? o2 ? os2' Ho2 Hrest]; subst.
    inversion Hsize; subst. f_equal; [|by apply IH].
    by apply (range_order_unique (Fields e)).
Qed.


Lemma BibTex_String_depth (h : store) (bib : BibTex) d1 d2 orders out1 out2 :
  BibTex_String h d1 bib orders = Some out1 ->
  BibTex_String h d2 bib orders = Some out2 -> out1 = out2.
Proof.
  intros H1 H2.
  apply (BibTex_String_mono h d1 (d1 `max` d2)) in H1; [|lia].
  apply (BibTex_String_mono h d2 (d1 `max` d2)) in H2; [|lia].
  congruence.
Qed.



Lemma String_runs_unique (h : store) (bib : BibTex) (out1 out2 : string) :
  Forall (fun e => (size (Fields e) <= 1)%nat) (Entries bib) ->
  String_runs h bib out1 -> String_runs h bib out2 -> out1 = out2.
Proof.
  intros Hsize (d1 & os1 & Hos1 & H1) (d2 & os2 & Hos2 & H2).
  rewrite (orders_unique _ _ _ Hsize Hos1 Hos2) in H1.
  eapply BibTex_String_depth; eauto.
Qed.







(** ** [BibTex.String]: the simplified form *)

(** With at least one field, the block is the header line, the lines of
    the fields but the last, and the last field without its comma. *)
Lemma entry_block_last (entry : BibEntry) (fields : list string) (last : string) :
  entry_block entry (fields ++ [last]) =
    header entry +:+ cat (map (fun a => a +:+ "," +:+ nl) fields)
    +:+ last +:+ nl +:+ "}" +:+ nl.
Proof.
  unfold entry_block, header.
  set (hd := "@" +:+ Type_ entry +:+ "{" +:+ CiteName entry).
  replace ("@" +:+ Type_ entry +:+ "{" +:+ CiteName entry +:+ "," +:+ nl)
    with (hd +:+ "," +:+ nl) by (subst hd; by rewrite !app_assoc).
  generalize hd. clear hd.
  induction fields as [|f fields IH]; intros hd.
  - simpl. by rewrite !app_assoc.
  - change (String.concat ("," +:+ nl) (hd :: (f :: fields) ++ [last]))
      with (hd +:+ ("," +:+ nl) +:+ String.concat ("," +:+ nl) (f :: fields ++ [last])).
    cbn [map cat fold_right]. rewrite !app_assoc.
    f_equal. f_equal. f_equal. specialize (IH f). rewrite !app_assoc in IH. exact IH.
Qed.

(** C5: for an entry without fields [BibTex.String] does not emit the
    header line [@article{doe2020,]: the two bytes that [Truncate] removes
    unconditionally are then the comma and the newline of the header, and
    the text is [@article{doe2020], newline, [}], newline, at every call.
    [PrettyString], which does not truncate, keeps the header line. *)
Theorem C5_String_truncates_header_of_empty_entry :
  String_runs [] no_field_bib ("@article{doe2020" +:+ nl +:+ "}" +:+ nl)
  /\ (forall out, String_runs [] no_field_bib out ->
                  out = "@article{doe2020" +:+ nl +:+ "}" +:+ nl)
  /\ PrettyString_runs [] no_field_bib ("@article{doe2020," +:+ nl +:+ "}" +:+ nl).
Proof.
  assert (String_runs [] no_field_bib ("@article{doe2020" +:+ nl +:+ "}" +:+ nl)) as Hrun.
  { exists 1%nat, [[]]. split; [|reflexivity].
    constructor; [|constructor]. unfold range_order. by vm_compute. }
  split; [exact Hrun|split].
  - intros out Hout. eapply String_runs_unique; [|exact Hout|exact Hrun].
    repeat constructor.
  - exists 1%nat, [([], [])]. split; [|reflexivity].
    constructor; [|constructor]. split; unfold range_order; by vm_compute.
Qed.

(** Scenario 1: every call of [String] on the bibliography with the one
    entry [article], [doe2020] and the field [title = Constant("Hello")]
    returns the text of the scenario. *)
Example String_scenario_1 (out : string) :
  String_runs [] one_field_bib out <->
  out = "@article{doe2020," +:+ nl +:+ "  title = {Hello}" +:+ nl +:+ "}" +:+ nl.
Proof.
  assert (String_runs [] one_field_bib
            ("@article{doe2020," +:+ nl +:+ "  title = {Hello}" +:+ nl +:+ "}" +:+ nl))
    as Hrun.
  { exists 1%nat, [[("title"%string, NewBibConst "Hello")]]. split; [|reflexivity].
    constructor; [|constructor]. unfold range_order. by vm_compute. }
  split; [|by intros ->].
  intros Hout. eapply String_runs_unique; [|exact Hout|exact Hrun].
  repeat constructor.
Qed.

(** The text of every entry that has a field is its header line, one line
    per field, in the order of the visit, with the comma of the last line
    removed, and the line of the closing brace. *)
Lemma String_entry_with_fields (h : store) (d : nat) (b : Buffer) (entry : BibEntry)
    (order : list (string * BibString)) (last : string * BibString)
    (fields : list string) (f : string) :
  Forall2 (fun kv a => String_assignment h d kv = Some a) order fields ->
  String_assignment h d last = Some f ->
  String_entry h d b (entry, order ++ [last]) =
    Some (b +:+ header entry +:+ cat (map (fun a => a +:+ "," +:+ nl) fields)
            +:+ f +:+ nl +:+ "}" +:+ nl).
Proof.
  intros Hfields Hlast. rewrite String_entry_eq. unfold String_block. simpl.
  rewrite collect_app. apply collect_Some_Forall2 in Hfields. rewrite Hfields.
  simpl. rewrite Hlast. by rewrite entry_block_last.
Qed.

(** C6, as stated, fails: the text of a bibliography with two entries has
    the header of the second entry on the line after the closing brace of
    the first, and no empty line anywhere. *)
Lemma C6_no_blank_line_between_entries :
  (2 <= length (Entries two_entry_bib))%nat
  /\ String_runs [] two_entry_bib two_entry_text
  /\ ~ (forall out, String_runs [] two_entry_bib out -> has_blank_line out = true).
Proof.
  assert (String_runs [] two_entry_bib two_entry_text) as Hrun.
  { exists 1%nat, [[("title"%string, NewBibConst "Hello")];
                   [("title"%string, NewBibConst "World")]].
    split; [|reflexivity].
    repeat (constructor; [unfold range_order; by vm_compute|]). constructor. }
  split; [simpl; lia|]. split; [exact Hrun|].
  intros Hall. specialize (Hall _ Hrun). by vm_compute in Hall.
Qed.

Lemma concat_sep_head (sep x y : string) (l : list string) :
  String.concat sep ((x +:+ y) :: l) = x +:+ String.concat sep (y :: l).
Proof. destruct l; [done|]. cbn [String.concat]. by rewrite app_assoc. Qed.

Lemma String_block_returns (h : store) (d : nat) (entry : BibEntry)
    (order : list (string * BibString)) :
  Forall (fun kv => is_Some (BibString_String h d kv.2)) order ->
  exists fields, String_block h d (entry, order) = Some (entry_block entry fields).
Proof.
  intros Hres. unfold String_block. simpl.
  assert (exists fields, collect (String_assignment h d) order = Some fields)
    as [fields ->]; [|by eexists].
  induction Hres as [|kv order [r Hr] _ [fields IH]]; [by eexists|].
  simpl. unfold String_assignment at 1. rewrite Hr, IH. by eexists.
Qed.

Lemma String_blocks_return (h : store) (d : nat) (entries : list BibEntry)
    (orders : list (list (string * BibString))) :
  Forall (Forall (fun kv => is_Some (BibString_String h d kv.2))) orders ->
  exists blocks, collect (String_block h d) (zip entries orders) = Some blocks.
Proof.
  intros Hres. revert entries.
  induction Hres as [|order orders Ho _ IH]; intros [|entry entries];
    try (by exists []).
  destruct (String_block_returns h d entry order Ho) as [fields Hb].
  destruct (IH entries) as [blocks Hbs].
  eexists. cbn [zip zip_with collect]. by rewrite Hb, Hbs.
Qed.

(** C6, as amended: when the fields resolve, [BibTex.String] returns the
    blocks of the entries in insertion order, one directly after the
    other; every block is what [String] prints for that entry alone,
    begins with [@] and ends with a newline, the closing brace and one
    newline.  So the header of an entry is on the line after the closing
    brace of the entry before it, and nothing is written between two
    entries. *)
Theorem C6_entries_follow_each_other (h : store) (d : nat) (bib : BibTex)
    (orders : list (list (string * BibString))) :
  Forall (Forall (fun kv => is_Some (BibString_String h d kv.2))) orders ->
  exists blocks,
    BibTex_String h d bib orders = Some (cat blocks)
    /\ Forall2
         (fun eo block =>
            String_entry h d EmptyString eo = Some block
            /\ exists body, block = "@" +:+ body +:+ nl +:+ "}" +:+ nl)
         (zip (Entries bib) orders) blocks.
Proof.
  intros Hres. rewrite BibTex_String_eq.
  destruct (String_blocks_return h d (Entries bib) orders Hres) as [blocks Hc].
  rewrite Hc. exists blocks. split; [done|].
  apply collect_Some_Forall2 in Hc.
  eapply Forall2_impl; [exact Hc|]. intros [entry order] block Hb. simpl in Hb.
  split.
  - rewrite String_entry_eq, Hb. by rewrite app_nil_l.
  - unfold String_block in Hb. simpl in Hb.
    destruct (collect (String_assignment h d) order) as [fields|]; [|done].
    injection Hb as <-. unfold entry_block. rewrite concat_sep_head.
    exists (String.concat ("," +:+ nl)
              ((Type_ entry +:+ "{" +:+ CiteName entry) :: fields)).
    by rewrite app_assoc.
Qed.

Lemma C6_witness :
  Forall (Forall (fun kv => is_Some (BibString_String [] 1 kv.2)))
    [[("title"%string, NewBibConst "Hello")]; [("title"%string, NewBibConst "World")]]
  /\ exists blocks,
       BibTex_String [] 1 two_entry_bib
         [[("title"%string, NewBibConst "Hello")];
          [("title"%string, NewBibConst "World")]]
       = Some (cat blocks)
       /\ Forall2
            (fun eo block =>
               String_entry [] 1 EmptyString eo = Some block
               /\ exists body, block = "@" +:+ body +:+ nl +:+ "}" +:+ nl)
            (zip (Entries two_entry_bib)
               [[("title"%string, NewBibConst "Hello")];
                [("title"%string, NewBibConst "World")]])
            blocks.
Proof.
  assert (Forall (Forall (fun kv => is_Some (BibString_String [] 1 kv.2)))
            [[("title"%string, NewBibConst "Hello")];
             [("title"%string, NewBibConst "World")]]) as Hres.
  { repeat constructor; by eexists. }
  split; [exact Hres|].
  exact (C6_entries_follow_each_other [] 1 two_entry_bib _ Hres).
Defined.

(** ** [strconv.Atoi] and [%d] *)








(** ** [BibTex.RawString]: the raw form *)

Lemma RawString_field_eq (h : store) (d : nat) (b : Buffer) (kv : string * BibString) :
  RawString_field h d b kv =
    match RawString_assignment h d kv with
    | Some a => Some (b +:+ a +:+ "," +:+ nl)
    | None => None
    end.
Proof.
  destruct kv as [key val]. unfold RawString_field, RawString_assignment. simpl.
  destruct (BibString_String h d val) as [r|]; [|done].
  unfold assignment, WriteString.
  destruct (GoStrconv.Atoi _); [by rewrite !app_assoc|].
  destruct (BibString_RawString h val); [|done]. by rewrite !app_assoc.
Qed.

Lemma RawString_entry_eq (h : store) (d : nat) (b : Buffer)
    (eo : BibEntry * list (string * BibString)) :
  RawString_entry h d b eo =
    match RawString_block h d eo with
    | Some block => Some (b +:+ block)
    | None => None
    end.
Proof.
  destruct eo as [entry order]. unfold RawString_entry, RawString_block. simpl.
  rewrite (for_range_writes _
             (fun kv => match RawString_assignment h d kv with
                        | Some a => Some (a +:+ "," +:+ nl)
                        | None => None
                        end)).
  - rewrite collect_fmap.
    destruct (collect (RawString_assignment h d) order) as [fields|]; [|done].
    apply close_entry.
  - intros b' kv. rewrite RawString_field_eq. by destruct (RawString_assignment h d kv).
Qed.

(** [BibTex.RawString] returns the lines of the variables, the lines of
    the preambles and the blocks of the entries, in this order. *)
Lemma BibTex_RawString_eq (h : store) (d : nat) (bib : BibTex)
    (vars : list (string * addr)) (orders : list (list (string * BibString))) :
  BibTex_RawString h d bib vars orders =
    match collect (RawString_string_line h d) vars,
          collect (RawString_preamble_line h) (Preambles bib),
          collect (RawString_block h d) (zip (Entries bib) orders) with
    | Some strings, Some preambles, Some blocks =>
        Some (cat strings +:+ cat preambles +:+ cat blocks)
    | _, _, _ => None
    end.
Proof.
  unfold BibTex_RawString.
  rewrite (for_range_writes _ (RawString_string_line h d)).
  2:{ intros b [k v]. unfold RawString_var, RawString_string_line, string_line. simpl.
      by destruct (BibString_String h d (PtrBibVar v)). }
  destruct (collect (RawString_string_line h d) vars) as [strings|]; [|done].
  rewrite (for_range_writes _ (RawString_preamble_line h)).
  2:{ intros b p. unfold RawString_preamble, RawString_preamble_line, preamble_line.
      by destruct (BibString_RawString h p). }
  destruct (collect (RawString_preamble_line h) _) as [preambles|]; [|done].
  rewrite (for_range_writes _ (RawString_block h d)).
  2:{ intros b eo. apply RawString_entry_eq. }
  destruct (collect (RawString_block h d) _) as [blocks|]; [|done].
  by rewrite !app_assoc.
Qed.


Example RawString_scenario_2 :
  RawString_runs month_state.1 month_state.2
    ("@string{month = {jan}}" +:+ nl
     +:+ "@misc{k," +:+ nl +:+ "  month = month" +:+ nl +:+ "}" +:+ nl)
  /\ String_runs month_state.1 month_state.2
       ("@misc{k," +:+ nl +:+ "  month = {jan}" +:+ nl +:+ "}" +:+ nl).
Proof.
  split.
  - exists 2%nat, [("month"%string, 0%nat)], [[("month"%string, PtrBibVar 0%nat)]].
    split; [|split; [|reflexivity]].
    + unfold range_order. by vm_compute.
    + constructor; [|constructor]. unfold range_order. by vm_compute.
  - exists 2%nat, [[("month"%string, PtrBibVar 0%nat)]]. split; [|reflexivity].
    constructor; [|constructor]. unfold range_order. by vm_compute.
Qed.

(** ** [BibTex.PrettyString]: the pretty form *)

Lemma keylen_fold_ge (keys : list string) (a : Z) :
  a <= fold_left (fun keylen key => if keylen <? Len key then Len key else keylen) keys a
  /\ Forall (fun k => Len k <=
       fold_left (fun keylen key => if keylen <? Len key then Len key else keylen) keys a)
       keys.
Proof.
  revert a. induction keys as [|k keys IH]; intros a; simpl; [split; [lia|constructor]|].
  destruct (IH (if a <? Len k then Len k else a)) as [Hge Hall].
  destruct (Z.ltb_spec a (Len k)); split; try lia; constructor; (lia || done).
Qed.

Lemma keylen_fold_attained (keys : list string) (a : Z) :
  fold_left (fun keylen key => if keylen <? Len key then Len key else keylen) keys a = a
  \/ Exists (fun k => Len k =
       fold_left (fun keylen key => if keylen <? Len key then Len key else keylen) keys a)
       keys.
Proof.
  revert a. induction keys as [|k keys IH]; intros a; simpl; [by left|].
  destruct (IH (if a <? Len k then Len k else a)) as [Heq|Hex].
  - rewrite Heq. destruct (Z.ltb_spec a (Len k)); [right; by left|by left].
  - right. by right.
Qed.

(** [keylen] is the length of the longest key: no key is longer, and some
    key is that long when there is one. *)
Lemma keylen_loop_longest (keys : list string) :
  Forall (fun k => Len k <= keylen_loop keys) keys
  /\ (keys <> [] -> Exists (fun k => Len k = keylen_loop keys) keys).
Proof.
  unfold keylen_loop. split; [apply keylen_fold_ge|].
  intros Hne. destruct (keylen_fold_attained keys 0) as [H0|Hex]; [|done].
  destruct keys as [|k keys]; [done|]. left.
  destruct (keylen_fold_ge (k :: keys) 0) as [_ Hall]. inversion Hall; subst.
  pose proof (Len_nonneg k). lia.
Qed.

Lemma Len_repeat_space (n : nat) : Len (GoStrings.repeat_nat " " n) = Z.of_nat n.
Proof.
  induction n as [|n IH]; [done|].
  cbn [GoStrings.repeat_nat]. rewrite Len_app, IH. unfold Len. simpl. lia.
Qed.

Lemma PrettyString_field_eq (h : store) (d : nat) (keylen : Z) (b : Buffer)
    (kv : string * BibString) :
  PrettyString_field h d keylen b kv =
    match PrettyString_line h d keylen kv with
    | Some line => Some (b +:+ line)
    | None => None
    end.
Proof.
  destruct kv as [key val]. unfold PrettyString_field, PrettyString_line. simpl.
  destruct (BibString_String h d val) as [r|]; [|done].
  destruct (GoStrings.Repeat _ _) as [pad|]; [|done].
  unfold Pretty_value, WriteString.
  destruct (GoStrconv.Atoi _); [done|].
  destruct (GoStrings.ContainsAny _ _); by rewrite !app_assoc.
Qed.

Lemma PrettyString_entry_eq (h : store) (d : nat) (b : Buffer) (entry : BibEntry)
    (order1 order2 : list (string * BibString)) :
  PrettyString_entry h d b (entry, (order1, order2)) =
    match collect (PrettyString_line h d (keylen_loop (map fst order1))) order2 with
    | Some lines => Some (b +:+ header entry +:+ cat lines +:+ "}" +:+ nl)
    | None => None
    end.
Proof.
  unfold PrettyString_entry.
  rewrite (for_range_writes _ (PrettyString_line h d (keylen_loop (map fst order1)))).
  - destruct (collect _ order2) as [lines|]; [|done].
    unfold WriteString. by rewrite !app_assoc.
  - intros b' kv. apply PrettyString_field_eq.
Qed.



Lemma PrettyString_line_spec (h : store) (d : nat) (keylen : Z)
    (kv : string * BibString) (r : string) :
  BibString_String h d kv.2 = Some r ->
  Len kv.1 <= keylen ->
  exists line, PrettyString_line h d keylen kv = Some line
               /\ pretty_line_of h d keylen kv line.
Proof.
  intros Hr Hlen. unfold PrettyString_line, GoStrings.Repeat. rewrite Hr.
  destruct (Z.ltb_spec (keylen - Len kv.1) 0); [lia|].
  eexists. split; [reflexivity|].
  exists r, (GoStrings.repeat_nat " " (Z.to_nat (keylen - Len kv.1))).
  repeat split; [done|].
  rewrite Len_app, Len_repeat_space. lia.
Qed.

Lemma PrettyString_lines_spec (h : store) (d : nat) (keylen : Z)
    (order : list (string * BibString)) :
  Forall (fun kv => is_Some (BibString_String h d kv.2)) order ->
  Forall (fun kv => Len kv.1 <= keylen) order ->
  exists lines, collect (PrettyString_line h d keylen) order = Some lines
                /\ Forall2 (pretty_line_of h d keylen) order lines.
Proof.
  induction order as [|kv order IH]; intros Hres Hlen.
  - exists []. split; [done|constructor].
  - inversion Hres as [|? ? [r Hr] Hres']; inversion Hlen as [|? ? Hk Hlen']; subst.
    destruct (IH Hres' Hlen') as (lines & Hc & Hall).
    destruct (PrettyString_line_spec h d keylen kv r Hr Hk) as (line & Hline & Hspec).
    exists (line :: lines). simpl. rewrite Hline, Hc. split; [done|by constructor].
Qed.

Lemma range_order_lookup {A : Type} (m : gmap string A) (order : list (string * A))
    (k : string) (v : A) :
  range_order m order -> ((k, v) ∈ order <-> m !! k = Some v).
Proof. unfold range_order. intros ->. apply elem_of_map_to_list. Qed.



Example PrettyString_pretty_entry :
  PrettyString_entry [] 1 EmptyString (pretty_entry, (title_then_year, title_then_year)) =
    Some ("@article{doe2020," +:+ nl
          +:+ "  title = {Hello {W}}," +:+ nl
          +:+ "  year  = 2020," +:+ nl
          +:+ "}" +:+ nl).
Proof. reflexivity. Qed.

(** ** Fields that are integers and fields that are not *)

(** A value that resolves has a raw text: every cell it refers to is there. *)
Lemma RawString_of_String (h : store) (d : nat) (val : BibString) (r : string) :
  BibString_String h d val = Some r -> exists raw, BibString_RawString h val = Some raw.
Proof.
  revert val r. induction d as [|d IH]; intros val r Hr; [done|].
  destruct val as [c|c|v|c].
  - by eexists.
  - by eexists.
  - simpl in *. unfold BibVar_RawString. destruct (h !! v); [by eexists|done].
  - rewrite BibComposite_String_eq in Hr.
    destruct (collect (BibString_String h d) c) as [rs|] eqn:Hc; [|done].
    fold (BibComposite_RawString h c). rewrite BibComposite_RawString_eq.
    assert (exists raws, collect (switch_RawString h) c = Some raws) as [raws ->];
      [|by eexists].
    clear Hr. revert rs Hc. induction c as [|x c IHc]; intros rs Hc; [by eexists|].
    simpl in Hc. destruct (BibString_String h d x) as [rx|] eqn:Hx; [|done].
    destruct (collect (BibString_String h d) c) as [rs'|]; [|done].
    destruct (IHc rs' eq_refl) as [raws Hraws].
    assert (exists raw, switch_RawString h x = Some raw) as [raw Hraw].
    { destruct (IH x rx Hx) as [raw Hraw]. destruct x; try by eexists. }
    exists (raw :: raws). simpl. by rewrite Hraw, Hraws.
Qed.






(** * Further properties of the package *)

(** ** Composites *)


(** X1: the resolved text of a composite is the resolved texts of its
    elements, in order and with nothing between them, whatever the dynamic
    types of the elements are. *)
Theorem composite_String_is_concatenation (h : store) (c : list BibString)
    (rs : list string) :
  Forall2 (fun v r => exists d, BibString_String h d v = Some r) c rs ->
  exists d, BibComposite_String h d c = Some (cat rs).
Proof. apply BibComposite_String_concat. Qed.

Lemma composite_String_is_concatenation_witness :
  Forall2
    (fun v r => exists d,
       BibString_String [{| Key := "month"; Value := NewBibConst "jan" |}] d v = Some r)
    [PtrBibVar 0%nat; PtrBibComposite [NewBibConst "-"; PtrBibConst "sup"]]
    ["jan"%string; "-sup"%string]
  /\ exists d,
       BibComposite_String [{| Key := "month"; Value := NewBibConst "jan" |}] d
         [PtrBibVar 0%nat; PtrBibComposite [NewBibConst "-"; PtrBibConst "sup"]]
       = Some (cat ["jan"%string; "-sup"%string]).
Proof.
  assert (Forall2
    (fun v r => exists d,
       BibString_String [{| Key := "month"; Value := NewBibConst "jan" |}] d v = Some r)
    [PtrBibVar 0%nat; PtrBibComposite [NewBibConst "-"; PtrBibConst "sup"]]
    ["jan"%string; "-sup"%string]) as Hall.
  { repeat constructor; exists 2%nat; reflexivity. }
  split; [exact Hall|].
  exact (composite_String_is_concatenation _ _ _ Hall).
Defined.

(** X2: the raw text of a composite is, joined by [" # "], what the type
    switch writes for each element: the raw text of a [*BibConst], a
    [*BibVar] or a [*BibComposite], and nothing for a [BibConst].  The
    separator is written before every element but the first, also before
    an element for which nothing is written. *)
Theorem composite_RawString_joins_switch_output (h : store) (c : list BibString) :
  BibComposite_RawString h c =
    match collect (switch_RawString h) c with
    | Some rs => Some (String.concat " # " rs)
    | None => None
    end
  /\ (forall t, switch_RawString h (ValBibConst t) = Some EmptyString)
  /\ (forall s, is_pointer s -> switch_RawString h s = BibString_RawString h s).
Proof.
  split; [apply BibComposite_RawString_eq|]. split; [done|].
  intros s Hs. by destruct s.
Qed.

(** X3: when every element of a composite is held through a pointer, the
    raw text of the composite is the raw texts of the elements joined by
    [" # "]. *)
Theorem composite_RawString_of_pointers (h : store) (c : list BibString)
    (rs : list string) :
  Forall is_pointer c ->
  Forall2 (fun v r => BibString_RawString h v = Some r) c rs ->
  BibComposite_RawString h c = Some (String.concat " # " rs).
Proof. apply BibComposite_RawString_join. Qed.

Lemma composite_RawString_of_pointers_witness :
  Forall is_pointer [PtrBibVar 0%nat; PtrBibConst "-supplement"]
  /\ BibComposite_RawString [{| Key := "month"; Value := NewBibConst "jan" |}]
       [PtrBibVar 0%nat; PtrBibConst "-supplement"]
     = Some (String.concat " # " ["month"%string; "{-supplement}"%string]).
Proof.
  assert (Forall is_pointer [PtrBibVar 0%nat; PtrBibConst "-supplement"]) as Hp.
  { repeat constructor. }
  split; [exact Hp|].
  apply (composite_RawString_of_pointers _ _ _ Hp). repeat constructor.
Defined.





(** X6: a composite inside a composite resolves as if its elements stood
    in its place. *)
Theorem nested_composite_String (h : store) (n : nat) (c rest : list BibString)
    (r : string) :
  BibString_String h n (PtrBibComposite (PtrBibComposite c :: rest)) = Some r ->
  BibString_String h n (PtrBibComposite (c ++ rest)) = Some r.
Proof.
  destruct n as [|[|d]]; [done|done|].
  rewrite !BibComposite_String_eq. cbn [collect].
  rewrite BibComposite_String_eq, collect_app.
  destruct (collect (BibString_String h d) c) as [rsc|] eqn:Hc; [|done].
  rewrite (collect_ext_Some (BibString_String h d) (BibString_String h (S d)) c rsc);
    [| |done].
  - destruct (collect (BibString_String h (S d)) rest) as [rsr|]; [|done].
    intros [= <-]. cbn [cat fold_right]. by rewrite cat_app.
  - intros x rx Hx. eapply BibString_String_mono; [exact Hx|lia].
Qed.

Lemma nested_composite_String_witness :
  BibString_String [] 3
    (PtrBibComposite [PtrBibComposite [NewBibConst "a"; NewBibConst "b"]; NewBibConst "c"])
  = Some "abc"%string
  /\ BibString_String [] 3
       (PtrBibComposite ([NewBibConst "a"; NewBibConst "b"] ++ [NewBibConst "c"]))
     = Some "abc"%string.
Proof.
  split; [reflexivity|].
  apply (nested_composite_String [] 3 [NewBibConst "a"; NewBibConst "b"]
           [NewBibConst "c"] "abc").
  reflexivity.
Defined.

(** ** Entries *)

Lemma spaceStripper_no_space (s : string) :
  GoStrings.contains_byte " " (spaceStripper s) = false.
Proof.
  induction s as [|c s IH]; [done|]. cbn [spaceStripper].
  destruct (Ascii.eqb c " ") eqn:Hc; [done|]. cbn [GoStrings.contains_byte].
  rewrite Ascii.eqb_sym in Hc. by rewrite Hc.
Qed.

Lemma spaceStripper_clean (s : string) :
  GoStrings.contains_byte " " s = false -> spaceStripper s = s.
Proof.
  induction s as [|c s IH]; [done|]. cbn [GoStrings.contains_byte spaceStripper].
  rewrite (Ascii.eqb_sym " " c).
  destruct (Ascii.eqb c " "); [done|]. intros Hs. by rewrite IH.
Qed.

(** X7: the cite key of a new entry has no space byte, whatever the
    argument; an argument without spaces is kept as it is; the type is
    stripped before it is lowered; and the entry has no field. *)
Theorem NewBibEntry_strips_spaces (ToLower : string -> string)
    (entryType citeName : string) :
  GoStrings.contains_byte " " (CiteName (NewBibEntry ToLower entryType citeName)) = false
  /\ (GoStrings.contains_byte " " citeName = false ->
      CiteName (NewBibEntry ToLower entryType citeName) = citeName)
  /\ (GoStrings.contains_byte " " entryType = false ->
      Type_ (NewBibEntry ToLower entryType citeName) = ToLower entryType)
  /\ NewBibEntry ToLower (spaceStripper entryType) (spaceStripper citeName)
     = NewBibEntry ToLower entryType citeName
  /\ Fields (NewBibEntry ToLower entryType citeName) = ∅.
Proof.
  unfold NewBibEntry. simpl. split; [apply spaceStripper_no_space|].
  split; [apply spaceStripper_clean|]. split.
  - intros Ht. by rewrite spaceStripper_clean.
  - split; [|done].
    by rewrite !(spaceStripper_clean (spaceStripper _)) by apply spaceStripper_no_space.
Qed.

(** X8: [AddField] stores the value under the trimmed name and leaves the
    other fields, the type and the cite key alone; two names that are
    equal once trimmed are one field, and the value added last is the one
    that stays. *)
Theorem AddField_trimmed_name_last_wins (name1 name2 : string) (v1 v2 : BibString)
    (entry : BibEntry) :
  GoStrings.TrimSpace name1 = GoStrings.TrimSpace name2 ->
  AddField name2 v2 (AddField name1 v1 entry) = AddField name2 v2 entry
  /\ Fields (AddField name2 v2 (AddField name1 v1 entry)) !! GoStrings.TrimSpace name1
     = Some v2
  /\ (forall key, key <> GoStrings.TrimSpace name1 ->
        Fields (AddField name2 v2 (AddField name1 v1 entry)) !! key = Fields entry !! key)
  /\ Type_ (AddField name2 v2 (AddField name1 v1 entry)) = Type_ entry
  /\ CiteName (AddField name2 v2 (AddField name1 v1 entry)) = CiteName entry.
Proof.
  intros Hname. unfold AddField. simpl. rewrite Hname. repeat split.
  - by rewrite insert_insert_eq.
  - by rewrite lookup_insert_eq.
  - intros key Hkey. by rewrite !lookup_insert_ne.
Qed.

Lemma AddField_trimmed_name_last_wins_witness :
  GoStrings.TrimSpace " title" = GoStrings.TrimSpace ("title " +:+ nl)
  /\ AddField ("title " +:+ nl) (NewBibConst "B")
       (AddField " title" (NewBibConst "A") (mkBibEntry "book" "k" ∅))
     = AddField ("title " +:+ nl) (NewBibConst "B") (mkBibEntry "book" "k" ∅).
Proof.
  assert (GoStrings.TrimSpace " title" = GoStrings.TrimSpace ("title " +:+ nl)) as Hn
    by reflexivity.
  split; [exact Hn|].
  exact (proj1 (AddField_trimmed_name_last_wins " title" ("title " +:+ nl)
                  (NewBibConst "A") (NewBibConst "B") (mkBibEntry "book" "k" ∅) Hn)).
Defined.

(** ** The printers and the visiting orders *)

(** X9: the column at which [PrettyString] aligns the fields of an entry
    does not depend on the order in which the first loop visits the
    fields. *)
Theorem keylen_same_for_every_order {A : Type} (m : gmap string A)
    (order1 order2 : list (string * A)) :
  range_order m order1 ->
  range_order m order2 ->
  keylen_loop (map fst order1) = keylen_loop (map fst order2).
Proof.
  unfold range_order. intros H1 H2.
  assert (map fst order1 ≡ₚ map fst order2) as Hp.
  { apply Permutation_map. by rewrite H1, H2. }
  destruct (keylen_loop_longest (map fst order1)) as [Hge1 Hatt1].
  destruct (keylen_loop_longest (map fst order2)) as [Hge2 Hatt2].
  destruct (map fst order1) as [|k1 keys1] eqn:E1.
  { apply Permutation_nil_l in Hp. by rewrite Hp. }
  destruct (map fst order2) as [|k2 keys2] eqn:E2.
  { by apply Permutation_nil_r in Hp. }
  rewrite Forall_forall in Hge1, Hge2.
  apply Exists_exists in Hatt1; [|done]. apply Exists_exists in Hatt2; [|done].
  destruct Hatt1 as (a & Ha & Hla). destruct Hatt2 as (b & Hb & Hlb).
  rewrite Hp in Ha. rewrite <- Hp in Hb.
  specialize (Hge2 a Ha). specialize (Hge1 b Hb). lia.
Qed.

Lemma keylen_same_for_every_order_witness :
  range_order (Fields pretty_entry) title_then_year
  /\ range_order (Fields pretty_entry) (rev title_then_year)
  /\ keylen_loop (map fst title_then_year) = keylen_loop (map fst (rev title_then_year)).
Proof.
  assert (range_order (Fields pretty_entry) title_then_year) as H1.
  { unfold range_order. vm_compute. apply perm_swap. }
  assert (range_order (Fields pretty_entry) (rev title_then_year)) as H2.
  { unfold range_order. vm_compute. reflexivity. }
  split; [exact H1|]. split; [exact H2|].
  exact (keylen_same_for_every_order _ _ _ H1 H2).
Defined.

Lemma collect_Permutation {A B : Type} (f : A -> option B) (l1 l2 : list A)
    (r1 : list B) :
  l1 ≡ₚ l2 -> collect f l1 = Some r1 ->
  exists r2, collect f l2 = Some r2 /\ r1 ≡ₚ r2.
Proof.
  intros Hp. revert r1.
  induction Hp as [|x l1 l2 _ IH|x y l|l1 l2 l3 _ IH1 _ IH2]; intros r1 Hc.
  - exists r1. by split.
  - simpl in *. destruct (f x) as [y|]; [|done].
    destruct (collect f l1) as [ys|]; [|done]. injection Hc as <-.
    destruct (IH ys eq_refl) as (r2 & -> & Hr). exists (y :: r2). split; [done|].
    by constructor.
  - simpl in *. destruct (f y) as [fy|]; [|done]. destruct (f x) as [fx|]; [|done].
    destruct (collect f l) as [ys|]; [|done]. injection Hc as <-.
    exists (fx :: fy :: ys). split; [done|]. apply perm_swap.
  - destruct (IH1 r1 Hc) as (r2 & Hc2 & Hr12).
    destruct (IH2 r2 Hc2) as (r3 & Hc3 & Hr23).
    exists r3. split; [done|]. by etrans.
Qed.

Lemma String_field_line (h : store) (d : nat) (b : Buffer) (kv : string * BibString) :
  String_field h d b kv =
    match String_line h d kv with Some line => Some (b +:+ line) | None => None end.
Proof.
  rewrite String_field_eq. unfold String_line. by destruct (String_assignment h d kv).
Qed.

(** X10: the order in which the field loop of [BibTex.String] visits an
    entry decides the order of the lines only: whenever the loop returns
    for one order it returns for every other, and the two texts are made
    of the same lines, each as often in the one as in the other. *)
Theorem String_field_lines_permuted (h : store) (d : nat) (entry : BibEntry)
    (order1 order2 : list (string * BibString)) (text1 : string) :
  range_order (Fields entry) order1 ->
  range_order (Fields entry) order2 ->
  for_range (String_field h d) EmptyString order1 = Some text1 ->
  exists text2 lines1 lines2,
    for_range (String_field h d) EmptyString order2 = Some text2
    /\ text1 = cat lines1 /\ text2 = cat lines2
    /\ lines1 ≡ₚ lines2
    /\ Forall2 (fun kv line => String_line h d kv = Some line) order1 lines1
    /\ Forall2 (fun kv line => String_line h d kv = Some line) order2 lines2.
Proof.
  unfold range_order. intros H1 H2.
  rewrite !(for_range_writes _ (String_line h d)) by apply String_field_line.
  destruct (collect (String_line h d) order1) as [lines1|] eqn:Hc1; [|done].
  intros [= <-].
  assert (order1 ≡ₚ order2) as Hp by (by rewrite H1, H2).
  destruct (collect_Permutation _ _ _ _ Hp Hc1) as (lines2 & Hc2 & Hl).
  exists (cat lines2), lines1, lines2. rewrite Hc2.
  repeat split; try done; by apply collect_Some_Forall2.
Qed.

Lemma String_field_lines_permuted_witness :
  range_order (Fields pretty_entry) title_then_year
  /\ range_order (Fields pretty_entry) (rev title_then_year)
  /\ for_range (String_field [] 1) EmptyString title_then_year
     = Some ("  title = {Hello {W}}," +:+ nl +:+ "  year = 2020," +:+ nl)
  /\ exists text2 lines1 lines2,
       for_range (String_field [] 1) EmptyString (rev title_then_year) = Some text2
       /\ "  title = {Hello {W}}," +:+ nl +:+ "  year = 2020," +:+ nl = cat lines1
       /\ text2 = cat lines2
       /\ lines1 ≡ₚ lines2
       /\ Forall2 (fun kv line => String_line [] 1 kv = Some line) title_then_year lines1
       /\ Forall2 (fun kv line => String_line [] 1 kv = Some line)
            (rev title_then_year) lines2.
Proof.
  assert (range_order (Fields pretty_entry) title_then_year) as H1.
  { unfold range_order. vm_compute. apply perm_swap. }
  assert (range_order (Fields pretty_entry) (rev title_then_year)) as H2.
  { unfold range_order. vm_compute. reflexivity. }
  assert (for_range (String_field [] 1) EmptyString title_then_year
          = Some ("  title = {Hello {W}}," +:+ nl +:+ "  year = 2020," +:+ nl)) as H3
    by reflexivity.
  split; [exact H1|]. split; [exact H2|]. split; [exact H3|].
  exact (String_field_lines_permuted [] 1 pretty_entry _ _ _ H1 H2 H3).
Defined.

(** ** How the printers follow the operations of the bibliography *)

Lemma for_range_app {A : Type} (body : Buffer -> A -> option Buffer) (buf : Buffer)
    (l1 l2 : list A) :
  for_range body buf (l1 ++ l2) =
    match for_range body buf l1 with
    | Some b => for_range body b l2
    | None => None
    end.
Proof.
  revert buf. induction l1 as [|x l1 IH]; intros buf; [done|]. simpl.
  destruct (body buf x); [apply IH|done].
Qed.

Lemma RawString_entry_from_empty (h : store) (d : nat) (b block : Buffer)
    (eo : BibEntry * list (string * BibString)) :
  RawString_entry h d EmptyString eo = Some block ->
  RawString_entry h d b eo = Some (b +:+ block).
Proof.
  rewrite !RawString_entry_eq. destruct (RawString_block h d eo); [|done].
  rewrite app_nil_l. by intros [= <-].
Qed.

Lemma String_entry_from_empty (h : store) (d : nat) (b block : Buffer)
    (eo : BibEntry * list (string * BibString)) :
  String_entry h d EmptyString eo = Some block ->
  String_entry h d b eo = Some (b +:+ block).
Proof.
  rewrite !String_entry_eq. destruct (String_block h d eo); [|done].
  rewrite app_nil_l. by intros [= <-].
Qed.

Lemma PrettyString_entry_from_empty (h : store) (d : nat) (b block : Buffer)
    (eo : BibEntry * (list (string * BibString) * list (string * BibString))) :
  PrettyString_entry h d EmptyString eo = Some block ->
  PrettyString_entry h d b eo = Some (b +:+ block).
Proof.
  destruct eo as [entry [order1 order2]]. rewrite !PrettyString_entry_eq.
  destruct (collect _ order2); [|done]. rewrite app_nil_l. by intros [= <-].
Qed.

(** X11: an entry added with [AddEntry] is printed after the entries that
    were there: each printer returns the text that it returned before the
    entry was added, followed by the text of the new entry alone. *)
Theorem AddEntry_appends_to_the_text (h : store) (d : nat) (bib : BibTex)
    (entry : BibEntry) (vars : list (string * addr))
    (orders : list (list (string * BibString))) (order : list (string * BibString))
    (porders : list (list (string * BibString) * list (string * BibString)))
    (porder : list (string * BibString) * list (string * BibString)) :
  length (Entries bib) = length orders ->
  length (Entries bib) = length porders ->
  (forall text block,
     BibTex_String h d bib orders = Some text ->
     String_entry h d EmptyString (entry, order) = Some block ->
     BibTex_String h d (AddEntry entry bib) (orders ++ [order]) = Some (text +:+ block))
  /\ (forall text block,
        BibTex_RawString h d bib vars orders = Some text ->
        RawString_entry h d EmptyString (entry, order) = Some block ->
        BibTex_RawString h d (AddEntry entry bib) vars (orders ++ [order])
        = Some (text +:+ block))
  /\ (forall text block,
        BibTex_PrettyString h d bib porders = Some text ->
        PrettyString_entry h d EmptyString (entry, porder) = Some block ->
        BibTex_PrettyString h d (AddEntry entry bib) (porders ++ [porder])
        = Some (text +:+ block)).
Proof.
  intros Hlen Hplen. split; [|split]; intros text block Htext Hblock.
  - unfold BibTex_String in *. cbn [AddEntry Entries]. rewrite zip_with_app by done.
    rewrite for_range_app, Htext. cbn [zip_with for_range].
    by rewrite (String_entry_from_empty _ _ _ _ _ Hblock).
  - unfold BibTex_RawString in *. cbn [AddEntry Entries Preambles].
    destruct (for_range (RawString_var h d) _ vars) as [b1|]; [|done].
    destruct (for_range (RawString_preamble h) b1 _) as [b2|]; [|done].
    rewrite zip_with_app by done.
    rewrite for_range_app, Htext. cbn [zip_with for_range].
    by rewrite (RawString_entry_from_empty _ _ _ _ _ Hblock).
  - unfold BibTex_PrettyString in *. cbn [AddEntry Entries].
    rewrite zip_with_app by done.
    rewrite for_range_app, Htext. cbn [zip_with for_range].
    by rewrite (PrettyString_entry_from_empty _ _ _ _ _ Hblock).
Qed.

Lemma AddEntry_appends_to_the_text_witness :
  length (Entries one_field_bib) = length [[("title"%string, NewBibConst "Hello")]]
  /\ BibTex_String [] 1
       (AddEntry (AddField "title" (NewBibConst "World") (mkBibEntry "book" "roe2021" ∅))
          one_field_bib)
       ([[("title"%string, NewBibConst "Hello")]]
        ++ [[("title"%string, NewBibConst "World")]])
     = Some (("@article{doe2020," +:+ nl +:+ "  title = {Hello}" +:+ nl +:+ "}" +:+ nl)
             +:+ ("@book{roe2021," +:+ nl +:+ "  title = {World}" +:+ nl +:+ "}" +:+ nl)).
Proof.
  assert (length (Entries one_field_bib)
          = length [[("title"%string, NewBibConst "Hello")]]) as Hlen by reflexivity.
  assert (length (Entries one_field_bib)
          = length [([("title"%string, NewBibConst "Hello")],
                     [("title"%string, NewBibConst "Hello")])]) as Hplen by reflexivity.
  split; [exact Hlen|].
  apply (proj1 (AddEntry_appends_to_the_text [] 1 one_field_bib _ [] _ _ _ ([], [])
                  Hlen Hplen)); reflexivity.
Defined.

Section Alloc.

Variables h h' : store.
Variable d : nat.

Lemma String_field_alloc b kv b' :
  String_field h d b kv = Some b' -> String_field (h ++ h') d b kv = Some b'.
Proof.
  destruct kv as [key val]. unfold String_field.
  destruct (BibString_String h d val) as [r|] eqn:Hr; [|done].
  by rewrite (BibString_String_alloc _ h' _ _ _ Hr).
Qed.

Lemma String_entry_alloc b eo b' :
  String_entry h d b eo = Some b' -> String_entry (h ++ h') d b eo = Some b'.
Proof.
  destruct eo as [entry order]. unfold String_entry.
  destruct (for_range (String_field h d) _ order) as [b1|] eqn:Hb1; [|done].
  by rewrite (for_range_impl _ _ _ _ _ String_field_alloc Hb1).
Qed.

Lemma PrettyString_field_alloc keylen b kv b' :
  PrettyString_field h d keylen b kv = Some b' ->
  PrettyString_field (h ++ h') d keylen b kv = Some b'.
Proof.
  destruct kv as [key val]. unfold PrettyString_field.
  destruct (BibString_String h d val) as [r|] eqn:Hr; [|done].
  by rewrite (BibString_String_alloc _ h' _ _ _ Hr).
Qed.

Lemma PrettyString_entry_alloc b eo b' :
  PrettyString_entry h d b eo = Some b' ->
  PrettyString_entry (h ++ h') d b eo = Some b'.
Proof.
  destruct eo as [entry [order1 order2]]. unfold PrettyString_entry.
  destruct (for_range (PrettyString_field h d _) _ order2) as [b1|] eqn:Hb1; [|done].
  by rewrite (for_range_impl _ _ _ _ _ (PrettyString_field_alloc _) Hb1).
Qed.

End Alloc.

(** X12: the simplified and the pretty form do not show the variable
    table or the preambles: after [AddStringVar], under a new key or one
    that is bound already, and after [AddPreamble], [String] and
    [PrettyString] return the text that they returned before. *)
Theorem AddStringVar_AddPreamble_keep_String (h : store) (bib : BibTex)
    (key : string) (val p : BibString) (d : nat)
    (orders : list (list (string * BibString)))
    (porders : list (list (string * BibString) * list (string * BibString))) :
  (forall text,
     BibTex_String h d bib orders = Some text ->
     BibTex_String (AddStringVar key val (h, bib)).1 d (AddStringVar key val (h, bib)).2
       orders = Some text)
  /\ (forall text,
        BibTex_PrettyString h d bib porders = Some text ->
        BibTex_PrettyString (AddStringVar key val (h, bib)).1 d
          (AddStringVar key val (h, bib)).2 porders = Some text)
  /\ BibTex_String h d (AddPreamble p bib) orders = BibTex_String h d bib orders
  /\ BibTex_PrettyString h d (AddPreamble p bib) porders
     = BibTex_PrettyString h d bib porders.
Proof.
  split; [|split; [|done]]; intros text.
  - apply for_range_impl. intros b eo b'. apply String_entry_alloc.
  - apply for_range_impl. intros b eo b'. apply PrettyString_entry_alloc.
Qed.

Lemma for_range_ext_Forall {A : Type} (body1 body2 : Buffer -> A -> option Buffer)
    (l : list A) (buf : Buffer) :
  Forall (fun x => forall b, body1 b x = body2 b x) l ->
  for_range body1 buf l = for_range body2 buf l.
Proof.
  intros Hall. revert buf. induction Hall as [|x l Hx _ IH]; intros buf; [done|].
  simpl. rewrite Hx. destruct (body2 buf x); [apply IH|done].
Qed.

Lemma Forall_zip_snd {A B : Type} (P : B -> Prop) (l : list A) (k : list B) :
  Forall P k -> Forall (fun x => P x.2) (zip l k).
Proof.
  intros Hk. revert l. induction Hk as [|y k Hy _ IH]; intros [|x l]; try constructor.
  - exact Hy.
  - apply IH.
Qed.

Lemma RawString_field_plain (h : store) (d : nat) (b : Buffer)
    (kv : string * BibString) :
  plain_constant kv ->
  RawString_field h (S d) b kv = String_field h (S d) b kv.
Proof.
  destruct kv as [key val]. intros (c & Hval & Htrim). simpl in Hval.
  unfold RawString_field, String_field.
  assert (BibString_String h (S d) val = Some c) as -> by (by destruct Hval as [-> | ->]).
  assert (BibString_RawString h val = Some ("{" +:+ c +:+ "}")) as ->
    by (by destruct Hval as [-> | ->]).
  rewrite Htrim. destruct (GoStrconv.Atoi c); [done|].
  unfold WriteString. by rewrite !app_assoc.
Qed.

(** X13: for a bibliography without preambles in which every field is a
    constant whose text has no white space around it, [RawString], when it
    finds no variable to print, returns what [String] returns. *)
Theorem RawString_of_plain_constants_is_String (h : store) (d : nat) (bib : BibTex)
    (orders : list (list (string * BibString))) :
  Preambles bib = [] ->
  Forall (Forall plain_constant) orders ->
  BibTex_RawString h (S d) bib [] orders = BibTex_String h (S d) bib orders.
Proof.
  intros Hpre Hplain. unfold BibTex_RawString, BibTex_String. rewrite Hpre. simpl.
  apply for_range_ext_Forall.
  eapply Forall_impl; [exact (Forall_zip_snd _ (Entries bib) orders Hplain)|].
  intros [entry order] Ho b. simpl in Ho. unfold RawString_entry, String_entry.
  rewrite (for_range_ext_Forall (RawString_field h (S d)) (String_field h (S d))); [done|].
  eapply Forall_impl; [exact Ho|]. intros kv Hkv b'. by apply RawString_field_plain.
Qed.

Lemma RawString_of_plain_constants_is_String_witness :
  Preambles one_field_bib = []
  /\ Forall (Forall plain_constant) [[("title"%string, NewBibConst "Hello")]]
  /\ BibTex_RawString [] 1 one_field_bib [] [[("title"%string, NewBibConst "Hello")]]
     = BibTex_String [] 1 one_field_bib [[("title"%string, NewBibConst "Hello")]].
Proof.
  assert (Preambles one_field_bib = []) as Hpre by reflexivity.
  assert (Forall (Forall plain_constant) [[("title"%string, NewBibConst "Hello")]])
    as Hplain.
  { repeat constructor. exists "Hello"%string. split; [by left|reflexivity]. }
  split; [exact Hpre|]. split; [exact Hplain|].
  exact (RawString_of_plain_constants_is_String [] 0 one_field_bib _ Hpre Hplain).
Defined.

(** X14: for an entry that has a field, [BibTex.String] writes the header
    line with its comma, one line per field in the order of the visit,
    each but the last ending with a comma, and the line of the closing
    brace, after what the buffer held. *)
Theorem String_entry_strips_the_last_comma (h : store) (d : nat) (b : Buffer)
    (entry : BibEntry) (order : list (string * BibString)) (last : string * BibString)
    (fields : list string) (f : string) :
  Forall2 (fun kv a => String_assignment h d kv = Some a) order fields ->
  String_assignment h d last = Some f ->
  String_entry h d b (entry, order ++ [last]) =
    Some (b +:+ header entry +:+ cat (map (fun a => a +:+ "," +:+ nl) fields)
            +:+ f +:+ nl +:+ "}" +:+ nl).
Proof. apply String_entry_with_fields. Qed.

Lemma String_entry_strips_the_last_comma_witness :
  Forall2 (fun kv a => String_assignment [] 1 kv = Some a)
    [("title"%string, NewBibConst " Hello ")] ["  title = {Hello}"%string]
  /\ String_assignment [] 1 ("year"%string, NewBibConst "2020") = Some "  year = 2020"%string
  /\ String_entry [] 1 EmptyString
       (mkBibEntry "article" "doe2020" ∅,
        [("title"%string, NewBibConst " Hello ")] ++ [("year"%string, NewBibConst "2020")])
     = Some ("@article{doe2020," +:+ nl +:+ "  title = {Hello}," +:+ nl
             +:+ "  year = 2020" +:+ nl +:+ "}" +:+ nl).
Proof.
  assert (Forall2 (fun kv a => String_assignment [] 1 kv = Some a)
            [("title"%string, NewBibConst " Hello ")] ["  title = {Hello}"%string]) as H1.
  { repeat constructor. }
  assert (String_assignment [] 1 ("year"%string, NewBibConst "2020")
          = Some "  year = 2020"%string) as H2 by reflexivity.
  split; [exact H1|]. split; [exact H2|].
  exact (String_entry_strips_the_last_comma [] 1 EmptyString
           (mkBibEntry "article" "doe2020" ∅) _ _ _ _ H1 H2).
Defined.

(** ** Stores that are built cell by cell *)

(** Induction over a string value and the elements of its composites. *)
Lemma BibString_elements_ind (P : BibString -> Prop) :
  (forall c, P (ValBibConst c)) ->
  (forall c, P (PtrBibConst c)) ->
  (forall v, P (PtrBibVar v)) ->
  (forall c, Forall P c -> P (PtrBibComposite c)) ->
  forall s, P s.
Proof.
  intros Hval Hptr Hvar Hcomp.
  fix IH 1. intros [c|c|v|c]; [apply Hval|apply Hptr|apply Hvar|].
  apply Hcomp. induction c as [|x c IHc]; constructor; [apply IH|exact IHc].
Qed.

Lemma refers_below_mono (n m : nat) (s : BibString) :
  (n <= m)%nat -> refers_below n s = true -> refers_below m s = true.
Proof.
  intros Hle. induction s as [c|c|v|c IH] using BibString_elements_ind; simpl; try done.
  - rewrite !Nat.ltb_lt. lia.
  - rewrite !forallb_forall. intros Hall x Hx.
    rewrite Forall_forall in IH. apply IH; [by apply list_elem_of_In|by apply Hall].
Qed.



(** X15: a store in which every cell refers to earlier cells only stays
    so when [AddStringVar] binds a key to a value whose cells are all
    there; the empty store is one. *)
Theorem AddStringVar_keeps_store_ok (h : store) (bib : BibTex) (key : string)
    (val : BibString) :
  store_ok h ->
  refers_below (length h) val = true ->
  store_ok (AddStringVar key val (h, bib)).1 /\ store_ok [].
Proof.
  intros Hok Hval. split; [|by intros v cell].
  intros v cell. simpl. rewrite lookup_snoc_Some.
  intros [[_ Hv]|[-> <-]]; [by apply Hok|exact Hval].
Qed.

Lemma AddStringVar_keeps_store_ok_witness :
  store_ok [{| Key := "a"; Value := NewBibConst "x" |}]
  /\ refers_below 1 (PtrBibComposite [PtrBibVar 0%nat; NewBibConst "y"]) = true
  /\ store_ok
       (AddStringVar "b" (PtrBibComposite [PtrBibVar 0%nat; NewBibConst "y"])
          ([{| Key := "a"; Value := NewBibConst "x" |}], NewBibTex)).1.
Proof.
  assert (store_ok [{| Key := "a"; Value := NewBibConst "x" |}]) as Hok.
  { intros [|v] cell; [by intros [= <-]|done]. }
  assert (refers_below 1 (PtrBibComposite [PtrBibVar 0%nat; NewBibConst "y"]) = true)
    as Hval by reflexivity.
  split; [exact Hok|]. split; [exact Hval|].
  exact (proj1 (AddStringVar_keeps_store_ok _ NewBibTex "b" _ Hok Hval)).
Defined.



(** A cell that refers to itself is not of this kind, and a reference to
    it resolves at no depth. *)
Example self_reference_does_not_resolve (d : nat) :
  BibString_String [{| Key := "a"; Value := PtrBibVar 0%nat |}] d (PtrBibVar 0%nat) = None.
Proof. induction d as [|d IH]; [done|exact IH]. Qed.

(** X17: every key of the table is bound to a cell that carries the key.
    This holds for a new bibliography and is kept by [AddStringVar],
    [AddEntry] and [AddPreamble]; so the raw text of the variable that
    [GetStringVar] returns for a key is the key. *)
Theorem table_ok_kept (h : store) (bib : BibTex) :
  table_ok h bib ->
  (forall key val, table_ok (AddStringVar key val (h, bib)).1
                            (AddStringVar key val (h, bib)).2)
  /\ (forall entry, table_ok h (AddEntry entry bib))
  /\ (forall p, table_ok h (AddPreamble p bib))
  /\ (forall err key v,
        GetStringVar err bib key = Returns v ->
        BibString_RawString h (PtrBibVar v) = Some key)
  /\ table_ok [] NewBibTex.
Proof.
  intros Hok. repeat split; try done.
  - intros key val key' v. simpl. destruct (decide (key = key')) as [<-|Hne].
    + rewrite lookup_insert_eq. intros [= <-].
      exists {| Key := key; Value := val |}. split; [|done].
      by rewrite lookup_app_r, Nat.sub_diag.
    + rewrite lookup_insert_ne by done. intros Hv.
      destruct (Hok key' v Hv) as (cell & Hcell & Hkey).
      exists cell. split; [by apply lookup_app_l_Some|done].
  - intros err key v. unfold GetStringVar.
    destruct (StringVar bib !! key) as [v'|] eqn:Hv; [|done]. intros [= <-].
    destruct (Hok key v' Hv) as (cell & Hcell & Hkey).
    simpl. unfold BibVar_RawString. by rewrite Hcell, Hkey.
Qed.

Lemma table_ok_kept_witness :
  table_ok month_state.1 month_state.2
  /\ forall err key v,
       GetStringVar err month_state.2 key = Returns v ->
       BibString_RawString month_state.1 (PtrBibVar v) = Some key.
Proof.
  assert (table_ok month_state.1 month_state.2) as Hok.
  { intros key v. simpl. destruct (decide ("month"%string = key)) as [<-|Hne].
    - rewrite lookup_insert_eq. intros [= <-]. by eexists.
    - by rewrite lookup_insert_ne. }
  split; [exact Hok|].
  exact (proj1 (proj2 (proj2 (proj2 (table_ok_kept _ _ Hok))))).
Defined.

(** ** The printers return *)

Lemma collect_is_Some {A B : Type} (f : A -> option B) (l : list A) :
  Forall (fun x => is_Some (f x)) l -> exists rs, collect f l = Some rs.
Proof.
  induction 1 as [|x l [y Hy] _ [ys IH]]; [by exists []|].
  exists (y :: ys). simpl. by rewrite Hy, IH.
Qed.

Lemma PrettyString_entry_returns (h : store) (d : nat) (b : Buffer) (entry : BibEntry)
    (order1 order2 : list (string * BibString)) :
  range_order (Fields entry) order1 ->
  range_order (Fields entry) order2 ->
  map_Forall (fun _ val => is_Some (BibString_String h d val)) (Fields entry) ->
  exists block, PrettyString_entry h d b (entry, (order1, order2)) = Some (b +:+ block).
Proof.
  intros Ho1 Ho2 Hres. rewrite PrettyString_entry_eq.
  destruct (keylen_loop_longest (map fst order1)) as [Hge _].
  rewrite Forall_forall in Hge.
  destruct (PrettyString_lines_spec h d (keylen_loop (map fst order1)) order2)
    as (lines & -> & _).
  - apply Forall_forall. intros [k v] Hin. simpl.
    apply (range_order_lookup _ _ _ _ Ho2) in Hin. by apply (Hres k v).
  - apply Forall_forall. intros [k v] Hin. simpl. apply Hge.
    apply (range_order_lookup _ _ _ _ Ho2), (range_order_lookup _ _ _ _ Ho1) in Hin.
    apply list_elem_of_In. apply list_elem_of_In in Hin.
    exact (in_map fst order1 (k, v) Hin).
  - by eexists.
Qed.

(** X18: [PrettyString] returns whenever the fields of the entries
    resolve, whatever orders the two loops of each entry take: the count
    that it passes to [strings.Repeat] is never negative, because the
    first loop has seen every key that the second one pads. *)
Theorem PrettyString_returns (h : store) (d : nat) (bib : BibTex)
    (porders : list (list (string * BibString) * list (string * BibString))) :
  Forall2 (fun e o => range_order (Fields e) o.1 /\ range_order (Fields e) o.2)
    (Entries bib) porders ->
  Forall (fun e => map_Forall (fun _ val => is_Some (BibString_String h d val)) (Fields e))
    (Entries bib) ->
  exists text, BibTex_PrettyString h d bib porders = Some text.
Proof.
  unfold BibTex_PrettyString. intros Ho. generalize EmptyString.
  induction Ho as [|e [o1 o2] es os [Ho1 Ho2] _ IH]; intros b Hres; [by exists b|].
  inversion Hres as [|? ? He Hes]; subst. cbn [zip_with for_range].
  destruct (PrettyString_entry_returns h d b e o1 o2 Ho1 Ho2 He) as [block ->].
  by apply IH.
Qed.

Lemma PrettyString_returns_witness :
  Forall2 (fun e o => range_order (Fields e) o.1 /\ range_order (Fields e) o.2)
    (Entries two_field_bib) [(a_then_b, b_then_a)]
  /\ Forall
       (fun e => map_Forall (fun _ val => is_Some (BibString_String [] 1 val)) (Fields e))
       (Entries two_field_bib)
  /\ exists text, BibTex_PrettyString [] 1 two_field_bib [(a_then_b, b_then_a)] = Some text.
Proof.
  assert (Forall2 (fun e o => range_order (Fields e) o.1 /\ range_order (Fields e) o.2)
            (Entries two_field_bib) [(a_then_b, b_then_a)]) as Ho.
  { constructor; [|constructor]. split; unfold range_order; vm_compute.
    - reflexivity.
    - apply perm_swap. }
  assert (Forall
            (fun e => map_Forall (fun _ val => is_Some (BibString_String [] 1 val))
                        (Fields e))
            (Entries two_field_bib)) as Hres.
  { constructor; [|constructor]. intros k v Hkv.
    apply elem_of_map_to_list in Hkv. vm_compute in Hkv.
    apply list_elem_of_In in Hkv. destruct Hkv as [[= <- <-]|[[= <- <-]|[]]]; by eexists. }
  split; [exact Ho|]. split; [exact Hres|].
  exact (PrettyString_returns [] 1 two_field_bib _ Ho Hres).
Defined.

(** The count is negative, and [strings.Repeat] panics, when a key is
    longer than [keylen]. *)
Example PrettyString_field_short_keylen :
  PrettyString_field [] 1 1 EmptyString ("ab"%string, NewBibConst "x") = None.
Proof. reflexivity. Qed.

Lemma RawString_block_returns (h : store) (d : nat)
    (eo : BibEntry * list (string * BibString)) :
  Forall (fun kv => is_Some (BibString_String h d kv.2)) eo.2 ->
  is_Some (RawString_block h d eo).
Proof.
  intros Hres. unfold RawString_block.
  destruct (collect_is_Some (RawString_assignment h d) eo.2) as [fields ->]; [|done].
  eapply Forall_impl; [exact Hres|]. intros kv [r Hr]. unfold RawString_assignment.
  rewrite Hr. destruct (GoStrconv.Atoi _); [done|].
  by destruct (RawString_of_String h d kv.2 r Hr) as [raw ->].
Qed.

(** X19: [RawString] returns whenever the variables and the fields
    resolve and the preambles have a raw text: the buffer always holds the
    two bytes that it truncates, and a field that resolves has a raw
    text. *)
Theorem RawString_returns (h : store) (d : nat) (bib : BibTex)
    (vars : list (string * addr)) (orders : list (list (string * BibString))) :
  Forall (fun kv => is_Some (BibString_String h d (PtrBibVar kv.2))) vars ->
  Forall (fun p => is_Some (BibString_RawString h p)) (Preambles bib) ->
  Forall (Forall (fun kv => is_Some (BibString_String h d kv.2))) orders ->
  exists text, BibTex_RawString h d bib vars orders = Some text.
Proof.
  intros Hvars Hpre Hfields. rewrite BibTex_RawString_eq.
  destruct (collect_is_Some (RawString_string_line h d) vars) as [strings ->].
  { eapply Forall_impl; [exact Hvars|]. intros kv [r Hr].
    unfold RawString_string_line. by rewrite Hr. }
  destruct (collect_is_Some (RawString_preamble_line h) (Preambles bib))
    as [preambles ->].
  { eapply Forall_impl; [exact Hpre|]. intros p [raw Hraw].
    unfold RawString_preamble_line. by rewrite Hraw. }
  destruct (collect_is_Some (RawString_block h d) (zip (Entries bib) orders))
    as [blocks ->]; [|by eexists].
  eapply Forall_impl; [exact (Forall_zip_snd _ (Entries bib) orders Hfields)|].
  intros eo Heo. by apply RawString_block_returns.
Qed.

Lemma RawString_returns_witness :
  Forall (fun kv => is_Some (BibString_String month_state.1 2 (PtrBibVar kv.2)))
    [("month"%string, 0%nat)]
  /\ Forall (fun p => is_Some (BibString_RawString month_state.1 p))
       (Preambles month_state.2)
  /\ Forall (Forall (fun kv => is_Some (BibString_String month_state.1 2 kv.2)))
       [[("month"%string, PtrBibVar 0%nat)]]
  /\ exists text,
       BibTex_RawString month_state.1 2 month_state.2 [("month"%string, 0%nat)]
         [[("month"%string, PtrBibVar 0%nat)]] = Some text.
Proof.
  assert (Forall (fun kv => is_Some (BibString_String month_state.1 2 (PtrBibVar kv.2)))
            [("month"%string, 0%nat)]) as H1.
  { repeat constructor. by eexists. }
  assert (Forall (fun p => is_Some (BibString_RawString month_state.1 p))
            (Preambles month_state.2)) as H2.
  { constructor. }
  assert (Forall (Forall (fun kv => is_Some (BibString_String month_state.1 2 kv.2)))
            [[("month"%string, PtrBibVar 0%nat)]]) as H3.
  { repeat constructor. by eexists. }
  split; [exact H1|]. split; [exact H2|]. split; [exact H3|].
  exact (RawString_returns _ 2 _ _ _ H1 H2 H3).
Defined.

(** ** More on the raw text and on the simplified form *)

Lemma collect_ext_Forall {A B : Type} (f g : A -> option B) (l : list A) :
  Forall (fun x => f x = g x) l -> collect f l = collect g l.
Proof.
  induction 1 as [|x l Hx _ IH]; [done|]. simpl. by rewrite Hx, IH.
Qed.

(** X20: the raw text of a value depends on the keys of the variables it
    refers to, not on what they are bound to: in two stores whose cells
    carry the same keys, every value has the same raw text. *)
Theorem RawString_ignores_bindings (h1 h2 : store) (s : BibString) :
  (forall v, Key <$> h1 !! v = Key <$> h2 !! v) ->
  BibString_RawString h1 s = BibString_RawString h2 s.
Proof.
  intros Hkeys. induction s as [c|c|v|c IH] using BibString_elements_ind; try done.
  - simpl. unfold BibVar_RawString. specialize (Hkeys v). unfold addr in *.
    destruct (h1 !! v), (h2 !! v); simpl in Hkeys; congruence.
  - fold (BibComposite_RawString h1 c). fold (BibComposite_RawString h2 c).
    rewrite !BibComposite_RawString_eq.
    rewrite (collect_ext_Forall (switch_RawString h1) (switch_RawString h2)); [done|].
    eapply Forall_impl; [exact IH|]. intros x Hx. by destruct x.
Qed.

Lemma RawString_ignores_bindings_witness :
  (forall v, Key <$> [{| Key := "month"; Value := NewBibConst "jan" |}] !! v
             = Key <$> [{| Key := "month"; Value := PtrBibConst "feb" |}] !! v)
  /\ BibString_RawString [{| Key := "month"; Value := NewBibConst "jan" |}]
       (PtrBibComposite [PtrBibVar 0%nat; PtrBibConst "-supplement"])
     = BibString_RawString [{| Key := "month"; Value := PtrBibConst "feb" |}]
         (PtrBibComposite [PtrBibVar 0%nat; PtrBibConst "-supplement"]).
Proof.
  assert (forall v, Key <$> [{| Key := "month"; Value := NewBibConst "jan" |}] !! v
                    = Key <$> [{| Key := "month"; Value := PtrBibConst "feb" |}] !! v)
    as Hkeys.
  { intros [|v]; reflexivity. }
  split; [exact Hkeys|].
  exact (RawString_ignores_bindings _ _ _ Hkeys).
Defined.

(** X21: what [BibTex.String] and [BibTex.RawString] write for an entry,
    with or without fields, after what the buffer held: the header up to
    the cite key and the fields, joined by a comma and a newline, then a
    newline, the closing brace and a newline.  The last two bytes that are
    removed are those of the last field, or those of the header when there
    is no field. *)
Theorem entry_text_is_joined_fields (h : store) (d : nat) (b : Buffer)
    (entry : BibEntry) (order : list (string * BibString)) :
  String_entry h d b (entry, order) =
    match collect (String_assignment h d) order with
    | Some fields =>
        Some (b +:+ String.concat ("," +:+ nl)
                      (("@" +:+ Type_ entry +:+ "{" +:+ CiteName entry) :: fields)
                +:+ nl +:+ "}" +:+ nl)
    | None => None
    end
  /\ RawString_entry h d b (entry, order) =
       match collect (RawString_assignment h d) order with
       | Some fields =>
           Some (b +:+ String.concat ("," +:+ nl)
                         (("@" +:+ Type_ entry +:+ "{" +:+ CiteName entry) :: fields)
                   +:+ nl +:+ "}" +:+ nl)
       | None => None
       end.
Proof.
  rewrite String_entry_eq, RawString_entry_eq. unfold String_block, RawString_block.
  simpl. split.
  - by destruct (collect (String_assignment h d) order).
  - by destruct (collect (RawString_assignment h d) order).
Qed.
